(** * Import-path rewriting for file and directory renames

    A shallow embedding of [src/services/getEditsForFileRename.ts]:
    the two path updaters (for imports inside a moved file and for
    imports of a moved file), the orchestration over the project's source
    files and its configuration file, and the string ranges of the edits.

    Paths and import texts are [string]s; positions in a file are [Z];
    an optional result ([string | undefined]) is an [option string];
    a failed [Debug.assert] or [Debug.assertDefined] is an explicit
    outcome. *)

From Stdlib Require Import String Ascii List Bool ZArith Lia.
Import ListNotations.

Local Open Scope string_scope.
Local Open Scope bool_scope.

(** ** String primitives of the compiler core

    [startsWith], [endsWith], [tryRemovePrefix], [tryRemoveSuffix],
    [firstDefined] and [pathIsRelative] are called by the service but live
    in the compiler's core utilities. *)

Module Core.

(** Modelled from the spec: [startsWith] of the compiler core (not in the
    service file), the prefix containment test on strings. *)
Definition startsWith (str pre : string) : bool := String.prefix pre str.

(** Modelled from the spec: [endsWith] of the compiler core, the suffix
    containment test: the expected position [length str - length suffix] is
    not negative and [suffix] occurs there. *)
Definition endsWith (str suffix : string) : bool :=
  (String.length suffix <=? String.length str)%nat
  && String.eqb
       (substring (String.length str - String.length suffix)
                  (String.length suffix) str)
       suffix.

(** Modelled from the spec: [tryRemovePrefix] of the compiler core:
    [str.substring(prefix.length)] when [str] starts with [prefix]. *)
Definition tryRemovePrefix (str pre : string) : option string :=
  if startsWith str pre
  then Some (substring (String.length pre)
                       (String.length str - String.length pre) str)
  else None.

(** Modelled from the spec: [tryRemoveSuffix] of the compiler core:
    [str.slice(0, str.length - suffix.length)] when [str] ends with
    [suffix]. *)
Definition tryRemoveSuffix (str suffix : string) : option string :=
  if endsWith str suffix
  then Some (substring 0 (String.length str - String.length suffix) str)
  else None.

(** Modelled from the spec: [firstDefined] of the compiler core: the first
    defined result of the callback, in array order. *)
Fixpoint firstDefined {T U : Type} (array : list T) (callback : T -> option U)
  : option U :=
  match array with
  | [] => None
  | x :: rest =>
      match callback x with
      | Some r => Some r
      | None => firstDefined rest callback
      end
  end.

(** Modelled from the spec: a directory separator, slash or backslash. *)
Definition isDirectorySeparator (c : ascii) : bool :=
  Ascii.eqb c "/" || Ascii.eqb c "\".

(** Modelled from the spec: [pathIsRelative] of the compiler core
    ([classify] of the spec): the text begins with a current- or
    parent-directory marker, that is "." or ".." followed by the end of the
    text or by a separator. *)
Definition pathIsRelative (path : string) : bool :=
  match path with
  | EmptyString => false
  | String c rest =>
      Ascii.eqb c "."
      && match rest with
         | EmptyString => true
         | String d rest' =>
             isDirectorySeparator d
             || (Ascii.eqb d "."
                 && match rest' with
                    | EmptyString => true
                    | String e _ => isDirectorySeparator e
                    end)
         end
  end.

(** JavaScript truthiness of a [string | undefined]: [undefined] and the
    empty string are falsy. *)
Definition truthy (o : option string) : bool :=
  match o with
  | Some s => negb (String.eqb s "")
  | None => false
  end.

End Core.
Export Core.

(** ** Path arithmetic of the compiler

    The service calls the compiler's path library: normalization, joining,
    directory names, relative paths, file extensions.  The service is
    embedded over an interface of these operations, so that what is proved
    of it holds for every implementation of the library; [posixPaths] below
    implements the interface for POSIX-style paths.  The two relative-path
    operations assert that their paths are both rooted or both relative,
    and so may fail. *)

(** A call either returns or stops at a failed [Debug.assert] or
    [Debug.assertDefined]. *)
Inductive outcome (A : Type) : Type :=
| Returned (a : A)
| AssertionFailure.
Arguments Returned {A} a.
Arguments AssertionFailure {A}.

Definition outcome_bind {A B} (o : outcome A) (k : A -> outcome B) : outcome B :=
  match o with
  | Returned a => k a
  | AssertionFailure => AssertionFailure
  end.

Module Debug.

(** Modelled from the spec: [Debug.assertDefined] of the compiler, which is
    not in the service file and on which the spec has no word: the value
    when it is defined, a failure otherwise. *)
Definition assertDefined {A} (value : option A) : outcome A :=
  match value with
  | Some a => Returned a
  | None => AssertionFailure
  end.

(** Modelled from the spec: [Debug.assert] of the compiler, which is not in
    the service file and on which the spec has no word: a failure when the
    condition is false. *)
Definition assert (condition : bool) : outcome unit :=
  if condition then Returned tt else AssertionFailure.

End Debug.

(** The third argument of [getRelativePathFromDirectory]: either the
    [ignoreCase] flag or a canonical-file-name function. *)
Inductive CaseHandling : Type :=
| IgnoreCase (ignoreCase : bool)
| CanonicalFileName (getCanonicalFileName : string -> string).

Class PathArithmetic : Type := {
  normalizePath : string -> string;
  combinePaths : string -> string -> string;
  getDirectoryPath : string -> string;
  ensurePathIsNonModuleName : string -> string;
  removeFileExtension : string -> string;
  isAnySupportedFileExtension : string -> bool;
  getRelativePathFromDirectory :
    string -> string -> CaseHandling -> outcome string;
  getRelativePathFromFile :
    string -> string -> (string -> string) -> outcome string;
  createGetCanonicalFileName : bool -> string -> string;
  resolveTripleslashReference : string -> string -> string
}.

(** ** Data model *)

Record TextRange : Type := createTextRange { pos : Z; end_ : Z }.

(** A string literal node: its text (without the quotes), the position of
    its opening quote ([node.getStart(sourceFile)]) and the position after
    its closing quote ([node.end]). *)
Record StringLiteralLike : Type := {
  text : string;
  getStart : Z;
  node_end : Z
}.

(** A triple-slash reference: a text range carrying a file name. *)
Record FileReference : Type := {
  reference_range : TextRange;
  reference_fileName : string
}.

Record SourceFile : Type := {
  fileName : string;
  referencedFiles : list FileReference;
  imports : list StringLiteralLike
}.

(** The initializers of a configuration file, as far as the service looks
    into them. *)
#[warnings="-register-all"]
Inductive Expression : Type :=
| StringLiteral (literal : StringLiteralLike)
| ArrayLiteralExpression (elements : list Expression)
| OtherExpression.

Record PropertyAssignment : Type := {
  property_name : string;
  initializer : Expression
}.

Record TsConfigSourceFile : Type := {
  config_fileName : string;
  config_properties : list PropertyAssignment
}.

(** Modelled from the spec: [getTsConfigPropArray] ([ConfigFileProvider] of
    the spec), the property assignments of the configuration object with
    the given key, in order. *)
Definition getTsConfigPropArray (configFile : TsConfigSourceFile) (propKey : string)
  : list PropertyAssignment :=
  filter (fun p => String.eqb (property_name p) propKey)
         (config_properties configFile).

Record ResolvedModuleWithFailedLookupLocations : Type := {
  resolvedModule : option string;   (* [resolvedModule.resolvedFileName] *)
  failedLookupLocations : list string
}.

Definition ModuleResolutionCache : Type :=
  string -> string -> option ResolvedModuleWithFailedLookupLocations.

(** The optional members of the host the service looks at. *)
Record LanguageServiceHost : Type := {
  useCaseSensitiveFileNames : option bool;
  resolveModuleNames : bool;   (* whether the host implements it *)
  host_getResolvedModuleWithFailedLookupLocationsFromCache :
    option ModuleResolutionCache
}.

(** Modelled from the spec: [hostUsesCaseSensitiveFileNames]
    ([HostCaseSensitivity] of the spec): the host's flag, [false] when the
    host does not say. *)
Definition hostUsesCaseSensitiveFileNames (host : LanguageServiceHost) : bool :=
  match useCaseSensitiveFileNames host with
  | Some b => b
  | None => false
  end.

Record Program : Type := {
  configFile : option TsConfigSourceFile;
  getSourceFiles : list SourceFile;
  getResolvedModuleWithFailedLookupLocationsFromCache : ModuleResolutionCache
}.

(** One recorded replacement ([TextEdit] of the spec). *)
Record TextEdit : Type := {
  edit_fileName : string;
  edit_range : TextRange;
  newText : string
}.

(** ** The change tracker

    [textChanges.ChangeTracker] is a sink: [replaceRangeWithText] records a
    replacement.  The tracker is threaded through the orchestration as
    state; a failed assertion abandons the computation. *)

Module ChangeTracker.

Definition t : Type := list TextEdit.

Definition M (A : Type) : Type := t -> outcome (A * t).

Definition ret {A} (a : A) : M A := fun changes => Returned (a, changes).

Definition bind {A B} (m : M A) (k : A -> M B) : M B :=
  fun changes =>
    match m changes with
    | Returned (a, changes') => k a changes'
    | AssertionFailure => AssertionFailure
    end.

Definition lift {A} (o : outcome A) : M A :=
  fun changes =>
    match o with
    | Returned a => Returned (a, changes)
    | AssertionFailure => AssertionFailure
    end.

(** Modelled from the spec: [replaceRangeWithText] ([ChangeEmitter] of the
    spec), a sink accepting (file, range, replacement text). *)
Definition replaceRangeWithText (file : string) (range : TextRange)
  (replacement : string) : M unit :=
  fun changes =>
    Returned (tt, (changes ++ [ {| edit_fileName := file;
                                   edit_range := range;
                                   newText := replacement |} ])%list).

(** [for (const x of xs) body] *)
Fixpoint forOf {T} (xs : list T) (body : T -> M unit) : M unit :=
  match xs with
  | [] => ret tt
  | x :: rest => bind (body x) (fun _ => forOf rest body)
  end.

(** Modelled from the spec: [ChangeTracker.with], which runs the callback on
    a fresh tracker and returns what it recorded, here as the list of
    replacements in the order they were recorded. *)
Definition with_ (cb : M unit) : outcome (list TextEdit) :=
  match cb [] with
  | Returned (_, changes) => Returned changes
  | AssertionFailure => AssertionFailure
  end.

End ChangeTracker.

Notation "x <- m ;; k" := (ChangeTracker.bind m (fun x => k))
  (at level 61, m at next level, right associativity).
Notation "m ;;; k" := (ChangeTracker.bind m (fun _ => k))
  (at level 61, right associativity).

(** [firstDefined] with a callback that may stop at a failed assertion. *)
Fixpoint firstDefinedE {T U : Type} (array : list T)
  (callback : T -> outcome (option U)) : outcome (option U) :=
  match array with
  | [] => Returned None
  | x :: rest =>
      match callback x with
      | Returned (Some r) => Returned (Some r)
      | Returned None => firstDefinedE rest callback
      | AssertionFailure => AssertionFailure
      end
  end.

(** ** The service: [getEditsForFileRename.ts] *)

Definition removeDirectoryPrefixFromPath (directory path : string) : option string :=
  let withoutDir := tryRemovePrefix path directory in
  match withoutDir with
  | None => None
  | Some w => if negb (startsWith w "/") then None else Some w
  end.

Definition indexEndings : list string :=
  ["/package.json"; "/index.js"; "/index.jsx"; "/index.ts"; "/index.d.ts";
   "/index.tsx"].

Definition tryRemoveIndexOrPackage (name : string) : option string :=
  firstDefined indexEndings (fun e => tryRemoveSuffix name e).

(** [node.getStart(sourceFile)] is the [getStart] field of the literal. *)
Definition createStringRange (node : StringLiteralLike) : TextRange :=
  createTextRange (getStart node + 1) (node_end node - 1).

Definition InternalPathUpdater : Type := SourceFile -> string -> option string.

Definition ExternalPathUpdater : Type :=
  string -> string -> bool -> outcome (option string).

Section Service.

Context {paths : PathArithmetic}.

Definition combineNormal (pathA pathB : string) : string :=
  normalizePath (combinePaths pathA pathB).

Definition combinePathsSafe (pathA pathB : string) : string :=
  ensurePathIsNonModuleName (combineNormal pathA pathB).

Definition endsWithSomeIndex (path : string) : bool :=
  endsWith (removeFileExtension path) "index".

(** Strips file extension and "/index" *)
Definition pathToImportPath (name : string) : string :=
  let withoutIndex := tryRemoveIndexOrPackage name in
  match withoutIndex with
  | Some w => w
  | None => removeFileExtension name
  end.

Definition toDirectory (path : string) : string :=
  if isAnySupportedFileExtension path then getDirectoryPath path else path.

Definition getRelative (from to : string) : outcome string :=
  outcome_bind
    (getRelativePathFromDirectory (toDirectory from) (toDirectory to)
                                  (IgnoreCase false))
    (fun relative => Returned (ensurePathIsNonModuleName relative)).

Definition importIsInternalToDirectory (oldDir sourceFilePath importText : string)
  : bool :=
  truthy (removeDirectoryPrefixFromPath oldDir
            (combineNormal (getDirectoryPath sourceFilePath) importText)).

(** Path updater for imports internal to the file(s) being moved. *)
Definition getInternalPathUpdater (oldFileOrDirPath newFileOrDirPath : string)
  : outcome InternalPathUpdater :=
  outcome_bind (getRelative newFileOrDirPath oldFileOrDirPath)
    (fun relativeNewDirToOldDir =>
  if String.eqb relativeNewDirToOldDir "."
  then Returned ((fun _ _ => None) : InternalPathUpdater)
  else
    outcome_bind (getRelative oldFileOrDirPath newFileOrDirPath)
      (fun relativeOldDirToNewDir =>
    Returned (fun (sourceFile : SourceFile) (importText : string) =>
      if negb (pathIsRelative importText)
         || importIsInternalToDirectory oldFileOrDirPath (fileName sourceFile) importText
         || importIsInternalToDirectory newFileOrDirPath (fileName sourceFile) importText
      then None
      else
        let short := tryRemovePrefix importText (relativeOldDirToNewDir ++ "/") in
        match short with
        | Some s => Some (ensurePathIsNonModuleName s)
        | None => Some (combineNormal relativeNewDirToOldDir importText)
        end))).

(** Path updater for imports external to the file(s) being moved. *)
Definition getExternalPathUpdater (oldFileOrDirPath newFileOrDirPath : string)
  (host : LanguageServiceHost) : outcome ExternalPathUpdater :=
  outcome_bind
    (getRelativePathFromFile oldFileOrDirPath newFileOrDirPath
       (createGetCanonicalFileName (hostUsesCaseSensitiveFileNames host)))
    (fun rel =>
  Returned (fun (fullPath importText : string) (isImport : bool) =>
    if String.eqb fullPath oldFileOrDirPath then
      let newImportText :=
        if pathIsRelative importText
        then combinePathsSafe
               (if truthy (tryRemoveIndexOrPackage fullPath)
                   && negb (endsWithSomeIndex importText)
                then importText
                else getDirectoryPath importText)
               rel
        else newFileOrDirPath in
      Returned (Some (if isImport then pathToImportPath newImportText
                      else newImportText))
    else
      let relToOld := removeDirectoryPrefixFromPath oldFileOrDirPath fullPath in
      match relToOld with
      | None => Returned None
      | Some relToOld =>
          let suffix := if isImport then pathToImportPath relToOld else relToOld in
          outcome_bind
            (if pathIsRelative importText
             then outcome_bind
                    (Debug.assertDefined (tryRemoveSuffix importText suffix))
                    (fun stripped =>
                       Returned (combinePathsSafe (getDirectoryPath stripped) rel))
             else Returned newFileOrDirPath)
            (fun newPrefix => Returned (Some (newPrefix ++ suffix)))
      end)).

Import ChangeTracker.

Definition updateImportsWorker (sourceFile : SourceFile)
  (updateRef updateImport : string -> outcome (option string)) : M unit :=
  forOf (referencedFiles sourceFile) (fun ref =>
    updated <- lift (updateRef (reference_fileName ref)) ;;
    match updated with
    | Some u => replaceRangeWithText (fileName sourceFile) (reference_range ref) u
    | None => ret tt
    end) ;;;
  forOf (imports sourceFile) (fun importStringLiteral =>
    updated <- lift (updateImport (text importStringLiteral)) ;;
    match updated with
    | Some u => replaceRangeWithText (fileName sourceFile)
                  (createStringRange importStringLiteral) u
    | None => ret tt
    end).

Definition updateTsconfigFiles (program : Program) (pathUpdater : ExternalPathUpdater)
  : M unit :=
  match configFile program with
  | None => ret tt
  | Some configFile =>
      forOf (getTsConfigPropArray configFile "files") (fun property =>
        match initializer property with
        | ArrayLiteralExpression elements =>
            forOf elements (fun element =>
              match element with
              | StringLiteral element =>
                  updated <- lift (pathUpdater (text element) (text element) false) ;;
                  match updated with
                  | Some u => replaceRangeWithText (config_fileName configFile)
                                (createStringRange element) u
                  | None => ret tt
                  end
              | _ => ret tt
              end)
        | _ => ret tt
        end)
  end.

(** Whether [updateImports] treats the file as a moved file. *)
Definition isMovedFile (oldFileOrDirPath newFileOrDirPath : string)
  (sourceFile : SourceFile) : bool :=
  String.eqb (fileName sourceFile) oldFileOrDirPath
  || truthy (removeDirectoryPrefixFromPath oldFileOrDirPath (fileName sourceFile))
  || String.eqb (fileName sourceFile) newFileOrDirPath
  || truthy (removeDirectoryPrefixFromPath newFileOrDirPath (fileName sourceFile)).

(** The cached resolution of an import of a file that is not moved. *)
Definition cachedResolution (program : Program) (host : LanguageServiceHost)
  (importText containingFile : string)
  : option ResolvedModuleWithFailedLookupLocations :=
  if resolveModuleNames host
  then match host_getResolvedModuleWithFailedLookupLocationsFromCache host with
       | Some fromCache => fromCache importText containingFile
       | None => None
       end
  else getResolvedModuleWithFailedLookupLocationsFromCache program
         importText containingFile.

(** The [updateImport] callback of a file that is not moved. *)
Definition updateImportOfUnmovedFile (program : Program)
  (externalPathUpdater : ExternalPathUpdater) (host : LanguageServiceHost)
  (sourceFile : SourceFile) (importText : string) : outcome (option string) :=
  let resolved := cachedResolution program host importText (fileName sourceFile) in
  match resolved with
  | None => Returned None
  | Some resolved =>
      firstDefinedE
        (match resolvedModule resolved with
         | Some resolvedFileName => [resolvedFileName]
         | None => failedLookupLocations resolved
         end)
        (fun path => externalPathUpdater path importText true)
  end.

Definition updateImports (program : Program)
  (externalPathUpdater : ExternalPathUpdater)
  (internalPathUpdater : InternalPathUpdater)
  (oldFileOrDirPath newFileOrDirPath : string) (host : LanguageServiceHost)
  : M unit :=
  forOf (getSourceFiles program) (fun sourceFile =>
    if isMovedFile oldFileOrDirPath newFileOrDirPath sourceFile
    then
      (* Update imports in a moved file. *)
      updateImportsWorker sourceFile
        (fun referenceText => Returned (internalPathUpdater sourceFile referenceText))
        (fun importText => Returned (internalPathUpdater sourceFile importText))
    else
      (* This is not a moved file, but may reference a moved file. *)
      updateImportsWorker sourceFile
        (fun referenceText =>
           externalPathUpdater
             (resolveTripleslashReference referenceText (fileName sourceFile))
             referenceText false)
        (updateImportOfUnmovedFile program externalPathUpdater host sourceFile)).

(** The format context only configures the tracker and is left out.  The
    two updaters are built first, in this order; building one can fail in
    the path library. *)
Definition getEditsForFileRename (program : Program)
  (oldFileOrDirPath newFileOrDirPath : string) (host : LanguageServiceHost)
  : outcome (list TextEdit) :=
  outcome_bind (getExternalPathUpdater oldFileOrDirPath newFileOrDirPath host)
    (fun externalPathUpdater =>
  outcome_bind (getInternalPathUpdater oldFileOrDirPath newFileOrDirPath)
    (fun internalPathUpdater =>
  ChangeTracker.with_
    (updateTsconfigFiles program externalPathUpdater ;;;
     updateImports program externalPathUpdater internalPathUpdater
       oldFileOrDirPath newFileOrDirPath host))).

End Service.

(** ** POSIX-style path arithmetic

    An implementation of the interface for paths that are either rooted at
    "/" or relative; drive letters, UNC shares and URLs are outside it. *)

Module Posix.

(** Modelled from the spec: [normalizeSlashes] of the path library: the
    separators are POSIX-style, a backslash becomes a slash. *)
Fixpoint normalizeSlashes (path : string) : string :=
  match path with
  | EmptyString => EmptyString
  | String c rest =>
      String (if Ascii.eqb c "\" then "/"%char else c) (normalizeSlashes rest)
  end.

(** Modelled from the spec: [getRootLength] of the path library, for paths
    rooted at "/" or relative. *)
Definition getRootLength (path : string) : nat :=
  match path with
  | String c _ => if isDirectorySeparator c then 1 else 0
  | EmptyString => 0
  end.

(** The last character of a string, if any. *)
Fixpoint lastChar (s : string) : option ascii :=
  match s with
  | EmptyString => None
  | String c EmptyString => Some c
  | String _ rest => lastChar rest
  end.

(** Modelled from the spec: the trailing-separator helpers of the path
    library. *)
Definition hasTrailingDirectorySeparator (path : string) : bool :=
  match lastChar path with
  | Some c => isDirectorySeparator c
  | None => false
  end.

Definition ensureTrailingDirectorySeparator (path : string) : string :=
  if hasTrailingDirectorySeparator path then path else path ++ "/".

Definition removeTrailingDirectorySeparator (path : string) : string :=
  if hasTrailingDirectorySeparator path
  then substring 0 (String.length path - 1) path
  else path.

(** [s.split("/")] *)
Fixpoint split (s : string) : list string :=
  match s with
  | EmptyString => [EmptyString]
  | String c rest =>
      if Ascii.eqb c "/" then EmptyString :: split rest
      else match split rest with
           | h :: t => String c h :: t
           | [] => [String c EmptyString]
           end
  end.

(** [xs.join("/")] *)
Fixpoint join (xs : list string) : string :=
  match xs with
  | [] => EmptyString
  | [x] => x
  | x :: rest => x ++ "/" ++ join rest
  end.

(** [s.lastIndexOf("/")], -1 when there is none. *)
Fixpoint lastIndexOfSeparator (s : string) : Z :=
  match s with
  | EmptyString => (-1)%Z
  | String c rest =>
      let k := lastIndexOfSeparator rest in
      if (0 <=? k)%Z then (k + 1)%Z
      else if Ascii.eqb c "/" then 0%Z else (-1)%Z
  end.

(** Modelled from the spec: [combinePaths] of the path library (the join of
    [combine] in the spec): a rooted second path replaces the first,
    otherwise the two are joined by one separator. *)
Definition combinePaths (path relativePath : string) : string :=
  let path := normalizeSlashes path in
  if String.eqb relativePath "" then path
  else
    let relativePath := normalizeSlashes relativePath in
    if String.eqb path "" || negb (getRootLength relativePath =? 0)%nat
    then relativePath
    else ensureTrailingDirectorySeparator path ++ relativePath.

(** Modelled from the spec: the root and the segments of a path; an empty
    last segment (trailing separator) is dropped. *)
Definition pathComponents (path : string) (rootLength : nat) : list string :=
  let root := substring 0 rootLength path in
  let rest := split (substring rootLength (String.length path - rootLength) path) in
  let rest := if String.eqb (last rest "x") "" then removelast rest else rest in
  root :: rest.

Definition getPathComponents (path : string) : list string :=
  let path := combinePaths "" path in
  pathComponents path (getRootLength path).

(** Modelled from the spec: collapsing "." and ".." segments ([combine] of
    the spec): "." and empty segments are dropped, ".." removes the segment
    before it, is dropped at the root, and is kept at the start of a relative
    path. *)
Definition reduceStep (reduced : list string) (component : string) : list string :=
  if String.eqb component "" then reduced
  else if String.eqb component "." then reduced
  else if String.eqb component ".." then
    if (1 <? List.length reduced)%nat then
      if negb (String.eqb (last reduced "") "..") then removelast reduced
      else (reduced ++ [component])%list
    else if negb (String.eqb (hd "" reduced) "") then reduced
    else (reduced ++ [component])%list
  else (reduced ++ [component])%list.

Definition reducePathComponents (components : list string) : list string :=
  match components with
  | [] => []
  | root :: rest => fold_left reduceStep rest [root]
  end.

(** Modelled from the spec: the path of a root and segments, joined by
    POSIX separators, with no trailing separator. *)
Definition getPathFromPathComponents (components : list string) : string :=
  match components with
  | [] => ""
  | root :: rest =>
      let root := if String.eqb root "" then ""
                  else ensureTrailingDirectorySeparator root in
      root ++ join rest
  end.

(** Modelled from the spec: [normalizePath] of the compiler's path library
    ([combine] of the spec normalizes with it): the "." and ".." segments
    are collapsed and a trailing separator is kept. *)
Definition normalizePath (path : string) : string :=
  let combined := normalizeSlashes path in
  let normalized :=
    getPathFromPathComponents (reducePathComponents (getPathComponents combined)) in
  if negb (String.eqb normalized "") && hasTrailingDirectorySeparator combined
  then ensureTrailingDirectorySeparator normalized
  else normalized.

(** Modelled from the spec: [getDirectoryPath] of the compiler's path
    library ([dirOf] of the spec): the path up to its last separator, the
    root for a path directly under the root. *)
Definition getDirectoryPath (path : string) : string :=
  let path := normalizeSlashes path in
  let rootLength := getRootLength path in
  if (rootLength =? String.length path)%nat then path
  else
    let path := removeTrailingDirectorySeparator path in
    substring 0 (Z.to_nat (Z.max (Z.of_nat rootLength) (lastIndexOfSeparator path)))
              path.

(** Modelled from the spec: [ensurePathIsNonModuleName] of the compiler's
    path library (the non-module form of the spec): a path that is neither
    rooted nor relative gets "./" in front. *)
Definition ensurePathIsNonModuleName (path : string) : string :=
  if (getRootLength path =? 0)%nat && negb (pathIsRelative path)
  then "./" ++ path
  else path.

(** Modelled from the spec: [fileExtensionIs] of the compiler: the path is
    longer than the extension and ends with it. *)
Definition fileExtensionIs (path extension : string) : bool :=
  (String.length extension <? String.length path)%nat && endsWith path extension.

Definition extensionsToRemove : list string :=
  [".d.ts"; ".ts"; ".js"; ".tsx"; ".jsx"; ".json"].

(** Modelled from the spec: [removeFileExtension] of the compiler, which
    strips one recognized file extension, the first of
    [extensionsToRemove] the path ends with. *)
Definition removeFileExtension (path : string) : string :=
  match firstDefined extensionsToRemove
          (fun ext => if fileExtensionIs path ext
                      then Some (substring 0 (String.length path - String.length ext)
                                           path)
                      else None) with
  | Some extensionless => extensionless
  | None => path
  end.

Definition supportedExtensions : list string :=
  [".d.ts"; ".ts"; ".tsx"; ".js"; ".jsx"].

(** Modelled from the spec: [isAnySupportedFileExtension] of the compiler:
    the path ends with a source file extension. *)
Definition isAnySupportedFileExtension (path : string) : bool :=
  existsb (fileExtensionIs path) supportedExtensions.

(** Modelled from the spec: the comparisons of the path library, exact or
    without regard to case (of the ASCII letters). *)
Definition toUpperCaseChar (c : ascii) : ascii :=
  let n := nat_of_ascii c in
  if ((97 <=? n) && (n <=? 122))%nat then ascii_of_nat (n - 32) else c.

Definition toLowerCaseChar (c : ascii) : ascii :=
  let n := nat_of_ascii c in
  if ((65 <=? n) && (n <=? 90))%nat then ascii_of_nat (n + 32) else c.

Fixpoint mapChars (f : ascii -> ascii) (s : string) : string :=
  match s with
  | EmptyString => EmptyString
  | String c rest => String (f c) (mapChars f rest)
  end.

Definition equateStringsCaseSensitive (a b : string) : bool := String.eqb a b.

Definition equateStringsCaseInsensitive (a b : string) : bool :=
  String.eqb a b
  || String.eqb (mapChars toUpperCaseChar a) (mapChars toUpperCaseChar b).

(** Modelled from the spec: [createGetCanonicalFileName] of the compiler:
    the identity on a case-sensitive host, lower-casing otherwise. *)
Definition createGetCanonicalFileName (useCaseSensitiveFileNames : bool)
  : string -> string :=
  if useCaseSensitiveFileNames then fun x => x else mapChars toLowerCaseChar.

(** The number of leading components two component lists share; the root
    is always compared without regard to case. *)
Fixpoint sharedComponents (atRoot : bool) (comparer : string -> string -> bool)
  (getCanonicalFileName : string -> string) (fromComponents toComponents : list string)
  : nat :=
  match fromComponents, toComponents with
  | f :: fromRest, t :: toRest =>
      if (if atRoot then equateStringsCaseInsensitive else comparer)
           (getCanonicalFileName f) (getCanonicalFileName t)
      then S (sharedComponents false comparer getCanonicalFileName fromRest toRest)
      else 0
  | _, _ => 0
  end.

(** Modelled from the spec: the segments of the relative path: one ".." for
    each segment of [from] that is not shared, then the segments of [to]
    that are not shared. *)
Definition getPathComponentsRelativeTo (from to : string)
  (stringEqualityComparer : string -> string -> bool)
  (getCanonicalFileName : string -> string) : list string :=
  let fromComponents := reducePathComponents (getPathComponents from) in
  let toComponents := reducePathComponents (getPathComponents to) in
  let start := sharedComponents true stringEqualityComparer getCanonicalFileName
                 fromComponents toComponents in
  if (start =? 0)%nat then toComponents
  else
    let components := skipn start toComponents in
    let relative := repeat ".." (List.length fromComponents - start) in
    ("" :: relative ++ components)%list.

(** Modelled from the spec: [getRelativePathFromDirectory] of the compiler's
    path library ([relativePath] of the spec): the normalized relative path
    from one directory to another, with POSIX separators and no trailing
    separator, compared under the given case handling; from a directory to
    itself it is the empty path.  It asserts that both paths are rooted or
    both relative. *)
Definition getRelativePathFromDirectory (fromDirectory to : string)
  (getCanonicalFileNameOrIgnoreCase : CaseHandling) : outcome string :=
  outcome_bind
    (Debug.assert (Bool.eqb (0 <? getRootLength fromDirectory)%nat
                            (0 <? getRootLength to)%nat))
    (fun _ =>
  let getCanonicalFileName :=
    match getCanonicalFileNameOrIgnoreCase with
    | CanonicalFileName f => f
    | IgnoreCase _ => fun x => x
    end in
  let ignoreCase :=
    match getCanonicalFileNameOrIgnoreCase with
    | IgnoreCase b => b
    | CanonicalFileName _ => false
    end in
  Returned
    (getPathFromPathComponents
       (getPathComponentsRelativeTo fromDirectory to
          (if ignoreCase then equateStringsCaseInsensitive
           else equateStringsCaseSensitive)
          getCanonicalFileName))).

(** Modelled from the spec: [getRelativePathFromFile] of the compiler's path
    library (the file-level [relativePath] of the spec). *)
Definition getRelativePathFromFile (from to : string)
  (getCanonicalFileName : string -> string) : outcome string :=
  outcome_bind
    (getRelativePathFromDirectory (getDirectoryPath from) to
       (CanonicalFileName getCanonicalFileName))
    (fun relative => Returned (ensurePathIsNonModuleName relative)).

(** Modelled from the spec: [resolveTripleslashReference] of the compiler:
    a reference directive is resolved relative to the directory of the file
    it is in. *)
Definition resolveTripleslashReference (moduleName containingFile : string) : string :=
  let basePath := getDirectoryPath containingFile in
  let referencedFileName :=
    if (0 <? getRootLength moduleName)%nat then moduleName
    else combinePaths basePath moduleName in
  normalizePath referencedFileName.

End Posix.

Definition posixPaths : PathArithmetic := {|
  normalizePath := Posix.normalizePath;
  combinePaths := Posix.combinePaths;
  getDirectoryPath := Posix.getDirectoryPath;
  ensurePathIsNonModuleName := Posix.ensurePathIsNonModuleName;
  removeFileExtension := Posix.removeFileExtension;
  isAnySupportedFileExtension := Posix.isAnySupportedFileExtension;
  getRelativePathFromDirectory := Posix.getRelativePathFromDirectory;
  getRelativePathFromFile := Posix.getRelativePathFromFile;
  createGetCanonicalFileName := Posix.createGetCanonicalFileName;
  resolveTripleslashReference := Posix.resolveTripleslashReference
|}.

(** ** Reading the edits off the inputs

    List-level descriptions of what the configuration scan emits, used to
    state what the tracker holds after [updateTsconfigFiles]. *)

(** The string-literal entries of the "files" arrays of a configuration
    file, in order; other elements and initializers that are not arrays
    contribute nothing. *)
Definition configStringEntries (configFile : TsConfigSourceFile)
  : list StringLiteralLike :=
  flat_map
    (fun property =>
       match initializer property with
       | ArrayLiteralExpression elements =>
           flat_map (fun element =>
                       match element with
                       | StringLiteral literal => [literal]
                       | _ => []
                       end) elements
       | _ => []
       end)
    (getTsConfigPropArray configFile "files").

(** The replacement of a configuration entry: the new path for an entry
    equal to the old path, the new path followed by the remainder for an
    entry strictly inside the old path, none otherwise. *)
Definition rewrittenEntry (oldPath newPath entry : string) : option string :=
  if String.eqb entry oldPath then Some newPath
  else match removeDirectoryPrefixFromPath oldPath entry with
       | Some suffix => Some (newPath ++ suffix)
       | None => None
       end.

Definition entryEdit (configFile : TsConfigSourceFile) (oldPath newPath : string)
  (entry : StringLiteralLike) : list TextEdit :=
  match rewrittenEntry oldPath newPath (text entry) with
  | Some replacement =>
      [ {| edit_fileName := config_fileName configFile;
           edit_range := createStringRange entry;
           newText := replacement |} ]
  | None => []
  end.

Definition configFileEdits (configFile : TsConfigSourceFile)
  (oldPath newPath : string) : list TextEdit :=
  flat_map (entryEdit configFile oldPath newPath) (configStringEntries configFile).

(** ** The claims as the spec words them

    Definitions that follow the words of the spec where the service does
    something else; each is compared with the service below. *)

Module Spec.

Section Worded.

Context {paths : PathArithmetic}.

(** The internal updater as the spec words it: both deltas are computed
    when it is built; a rename that stays within one directory, or whose
    delta is ".", gives no change for every input; and the stripped remainder
    is used only when it is not empty. *)
Definition internalPathUpdater (oldPath newPath : string)
  : outcome InternalPathUpdater :=
  outcome_bind (getRelative newPath oldPath) (fun deltaNewToOld =>
  outcome_bind (getRelative oldPath newPath) (fun deltaOldToNew =>
  Returned (fun (sourceFile : SourceFile) (importText : string) =>
    if String.eqb (toDirectory oldPath) (toDirectory newPath)
       || String.eqb deltaNewToOld "."
    then None
    else if negb (pathIsRelative importText)
            || importIsInternalToDirectory oldPath (fileName sourceFile) importText
            || importIsInternalToDirectory newPath (fileName sourceFile) importText
    then None
    else
      match tryRemovePrefix importText (deltaOldToNew ++ "/") with
      | Some remainder =>
          if String.eqb remainder ""
          then Some (combineNormal deltaNewToOld importText)
          else Some (ensurePathIsNonModuleName remainder)
      | None => Some (combineNormal deltaNewToOld importText)
      end))).

(** The replacement for a reference that resolves to the old path itself,
    as the spec words it, given the precomputed relative path [rel]: for
    relative text, the relative path is appended to the text when the text
    has no index-like suffix, and to its directory when it has one. *)
Definition exactMatchReplacement (newPath rel : string)
  (importText : string) (isImport : bool) : string :=
  let newImportText :=
    if pathIsRelative importText
    then combinePathsSafe
           (if endsWithSomeIndex importText then getDirectoryPath importText
            else importText) rel
    else newPath in
  if isImport then pathToImportPath newImportText else newImportText.

(** The directory delta as the spec words it: computed under the host's
    case sensitivity, like the relative path of the external updater. *)
Definition getRelative (host : LanguageServiceHost) (from to : string)
  : outcome string :=
  outcome_bind
    (getRelativePathFromDirectory (toDirectory from) (toDirectory to)
       (CanonicalFileName
          (createGetCanonicalFileName (hostUsesCaseSensitiveFileNames host))))
    (fun relative => Returned (ensurePathIsNonModuleName relative)).

End Worded.

(** The configuration edits as the spec words them: exactly the entries
    equal to the old path are replaced, by the new path. *)
Definition configFileEdits (configFile : TsConfigSourceFile)
  (oldPath newPath : string) : list TextEdit :=
  flat_map
    (fun entry =>
       if String.eqb (text entry) oldPath
       then [ {| edit_fileName := config_fileName configFile;
                 edit_range := createStringRange entry;
                 newText := newPath |} ]
       else [])
    (configStringEntries configFile).

End Spec.

(** One step of a loop of [updateImportsWorker] or [updateTsconfigFiles]:
    the callback's result decides whether one replacement is recorded. *)
Definition recordUpdate (file : string) (range : TextRange)
  (updated : outcome (option string)) : ChangeTracker.M unit :=
  updated <- ChangeTracker.lift updated ;;
  match updated with
  | Some u => ChangeTracker.replaceRangeWithText file range u
  | None => ChangeTracker.ret tt
  end.

(** ** Example projects *)

Definition exampleHost : LanguageServiceHost :=
  {| useCaseSensitiveFileNames := Some true;
     resolveModuleNames := false;
     host_getResolvedModuleWithFailedLookupLocationsFromCache := None |}.

(** A configuration file whose "files" array lists a file inside "/p/dir",
    a number and the directory itself; its "include" is not looked at. *)
Definition exampleConfig : TsConfigSourceFile :=
  {| config_fileName := "/p/tsconfig.json";
     config_properties :=
       [ {| property_name := "include"; initializer := StringLiteral
              {| text := "/p/dir"; getStart := 12; node_end := 20 |} |};
         {| property_name := "files"; initializer := ArrayLiteralExpression
              [ StringLiteral {| text := "/p/dir/a.ts"; getStart := 30; node_end := 43 |};
                OtherExpression;
                StringLiteral {| text := "/p/dir"; getStart := 50; node_end := 58 |};
                StringLiteral {| text := "/p/dirt.ts"; getStart := 60; node_end := 72 |} ] |};
         {| property_name := "files"; initializer := OtherExpression |} ] |}.

Definition exampleConfigProgram : Program :=
  {| configFile := Some exampleConfig;
     getSourceFiles := [];
     getResolvedModuleWithFailedLookupLocationsFromCache := fun _ _ => None |}.

(** A project of one file "/p/a.ts" that imports "./index", resolved to
    "/p/index.ts". *)
Definition exampleIndexProgram : Program :=
  {| configFile := None;
     getSourceFiles :=
       [ {| fileName := "/p/a.ts"; referencedFiles := [];
            imports := [ {| text := "./index"; getStart := 14; node_end := 23 |} ] |} ];
     getResolvedModuleWithFailedLookupLocationsFromCache :=
       fun importText containingFile =>
         if String.eqb importText "./index" && String.eqb containingFile "/p/a.ts"
         then Some {| resolvedModule := Some "/p/index.ts";
                      failedLookupLocations := [] |}
         else None |}.

(** A project of one file inside the directory "/p/dir", importing from
    outside of it. *)
Definition exampleMovedProgram : Program :=
  {| configFile := None;
     getSourceFiles :=
       [ {| fileName := "/p/dir/inner.ts"; referencedFiles := [];
            imports := [ {| text := "../outside"; getStart := 14; node_end := 26 |} ] |} ];
     getResolvedModuleWithFailedLookupLocationsFromCache := fun _ _ => None |}.

(** A file "/p/a.ts" that imports "./dir/b" after the directory "/p/dir/b"
    was renamed: the resolution fails, with the candidates it tried. *)
Definition exampleFailedLookupFile : SourceFile :=
  {| fileName := "/p/a.ts"; referencedFiles := [];
     imports := [ {| text := "./dir/b"; getStart := 14; node_end := 23 |} ] |}.

Definition exampleFailedLookupProgram : Program :=
  {| configFile := None;
     getSourceFiles := [exampleFailedLookupFile];
     getResolvedModuleWithFailedLookupLocationsFromCache :=
       fun importText containingFile =>
         if String.eqb importText "./dir/b" && String.eqb containingFile "/p/a.ts"
         then Some {| resolvedModule := None;
                      failedLookupLocations :=
                        ["/p/dir/b.ts"; "/p/dir/b.tsx"; "/p/dir/b.d.ts";
                         "/p/dir/b/package.json"; "/p/dir/b/index.ts"] |}
         else None |}.

(** Scenario A: "/p/a.ts" imports "./old", which resolves to "/p/old.ts". *)
Definition scenarioA : Program :=
  {| configFile := None;
     getSourceFiles :=
       [ {| fileName := "/p/a.ts"; referencedFiles := [];
            imports := [ {| text := "./old"; getStart := 14; node_end := 21 |} ] |} ];
     getResolvedModuleWithFailedLookupLocationsFromCache :=
       fun importText containingFile =>
         if String.eqb importText "./old" && String.eqb containingFile "/p/a.ts"
         then Some {| resolvedModule := Some "/p/old.ts";
                      failedLookupLocations := [] |}
         else None |}.

(** A host whose file names are not case-sensitive. *)
Definition caseInsensitiveHost : LanguageServiceHost :=
  {| useCaseSensitiveFileNames := Some false;
     resolveModuleNames := false;
     host_getResolvedModuleWithFailedLookupLocationsFromCache := None |}.

(** ** Reading the edits off the callbacks

    List-level descriptions of what the loops of [updateImportsWorker] and
    [updateTsconfigFiles] record, given the results of their callbacks. *)

(** The replacement recorded for one reference, import or entry, if any. *)
Definition updateEdit (file : string) (range : TextRange)
  (updated : outcome (option string)) : list TextEdit :=
  match updated with
  | Returned (Some u) =>
      [ {| edit_fileName := file; edit_range := range; newText := u |} ]
  | _ => []
  end.

(** The edits of one source file: those of its reference directives, then
    those of its imports, each in the order of the file. *)
Definition workerEdits (sourceFile : SourceFile)
  (updateRef updateImport : string -> outcome (option string)) : list TextEdit :=
  (flat_map (fun ref => updateEdit (fileName sourceFile) (reference_range ref)
                          (updateRef (reference_fileName ref)))
            (referencedFiles sourceFile)
   ++ flat_map (fun literal => updateEdit (fileName sourceFile)
                                 (createStringRange literal)
                                 (updateImport (text literal)))
               (imports sourceFile))%list.

(** The edits of a moved file. *)
Definition movedFileEdits (internalPathUpdater : InternalPathUpdater)
  (sourceFile : SourceFile) : list TextEdit :=
  workerEdits sourceFile
    (fun referenceText => Returned (internalPathUpdater sourceFile referenceText))
    (fun importText => Returned (internalPathUpdater sourceFile importText)).

(** The edits of a file that is not moved. *)
Definition unmovedFileEdits {paths : PathArithmetic} (program : Program)
  (externalPathUpdater : ExternalPathUpdater) (host : LanguageServiceHost)
  (sourceFile : SourceFile) : list TextEdit :=
  workerEdits sourceFile
    (fun referenceText =>
       externalPathUpdater
         (resolveTripleslashReference referenceText (fileName sourceFile))
         referenceText false)
    (updateImportOfUnmovedFile program externalPathUpdater host sourceFile).

(** The edits of a source file of the project. *)
Definition sourceFileEdits {paths : PathArithmetic} (program : Program)
  (externalPathUpdater : ExternalPathUpdater)
  (internalPathUpdater : InternalPathUpdater)
  (oldPath newPath : string) (host : LanguageServiceHost)
  (sourceFile : SourceFile) : list TextEdit :=
  if isMovedFile oldPath newPath sourceFile
  then movedFileEdits internalPathUpdater sourceFile
  else unmovedFileEdits program externalPathUpdater host sourceFile.

(** The edits of the reference directives of a file that is not moved. *)
Definition referenceEdits {paths : PathArithmetic}
  (externalPathUpdater : ExternalPathUpdater) (sourceFile : SourceFile)
  : list TextEdit :=
  flat_map (fun ref =>
              updateEdit (fileName sourceFile) (reference_range ref)
                (externalPathUpdater
                   (resolveTripleslashReference (reference_fileName ref)
                      (fileName sourceFile))
                   (reference_fileName ref) false))
           (referencedFiles sourceFile).

(** The paths the updater is tried on for an import: the resolved file
    name, or the failed-lookup candidates when there is none. *)
Definition resolutionCandidates (resolved : ResolvedModuleWithFailedLookupLocations)
  : list string :=
  match resolvedModule resolved with
  | Some resolvedFileName => [resolvedFileName]
  | None => failedLookupLocations resolved
  end.

(** A path that is neither the given path nor strictly inside it. *)
Definition outsidePath (path candidate : string) : Prop :=
  candidate <> path /\ forall rest, candidate <> path ++ "/" ++ rest.

(** Nothing in the project is at the given path or strictly inside it: no
    string entry of the configuration, no source file, no resolved
    reference directive and no path the resolution of an import offers. *)
Definition unrelatedTo {paths : PathArithmetic} (program : Program)
  (host : LanguageServiceHost) (path : string) : Prop :=
  (forall config entry,
      configFile program = Some config ->
      In entry (configStringEntries config) ->
      outsidePath path (text entry))
  /\ (forall sourceFile,
         In sourceFile (getSourceFiles program) ->
         outsidePath path (fileName sourceFile)
         /\ (forall ref,
                In ref (referencedFiles sourceFile) ->
                outsidePath path
                  (resolveTripleslashReference (reference_fileName ref)
                     (fileName sourceFile)))
         /\ (forall literal resolved candidate,
                In literal (imports sourceFile) ->
                cachedResolution program host (text literal) (fileName sourceFile)
                = Some resolved ->
                In candidate (resolutionCandidates resolved) ->
                outsidePath path candidate)).

(** Whether an entry is the given path or strictly inside it. *)
Definition atOrInsidePath (path entry : string) : bool :=
  String.eqb entry path || truthy (removeDirectoryPrefixFromPath path entry).

(** The edits of the configuration file under a path updater. *)
Definition configEditsWith (configFile : TsConfigSourceFile)
  (pathUpdater : ExternalPathUpdater) : list TextEdit :=
  flat_map (fun entry => updateEdit (config_fileName configFile)
                           (createStringRange entry)
                           (pathUpdater (text entry) (text entry) false))
           (configStringEntries configFile).

(** The edits of the configuration scan of a project. *)
Definition configScanEdits (program : Program)
  (pathUpdater : ExternalPathUpdater) : list TextEdit :=
  match configFile program with
  | Some config => configEditsWith config pathUpdater
  | None => []
  end.

(** The edits of a project: those of the configuration scan, then those of
    the source files in the order of the project. *)
Definition projectEdits {paths : PathArithmetic} (program : Program)
  (externalPathUpdater : ExternalPathUpdater)
  (internalPathUpdater : InternalPathUpdater)
  (oldPath newPath : string) (host : LanguageServiceHost) : list TextEdit :=
  (configScanEdits program externalPathUpdater
   ++ flat_map (sourceFileEdits program externalPathUpdater internalPathUpdater
                  oldPath newPath host)
               (getSourceFiles program))%list.

(** The edit of one import of a file that is not moved, if any. *)
Definition importEdit {paths : PathArithmetic} (program : Program)
  (externalPathUpdater : ExternalPathUpdater) (host : LanguageServiceHost)
  (sourceFile : SourceFile) (literal : StringLiteralLike) : list TextEdit :=
  updateEdit (fileName sourceFile) (createStringRange literal)
    (updateImportOfUnmovedFile program externalPathUpdater host sourceFile
       (text literal)).

(** The edits the computation records before it reaches an import of a file
    that is not moved: those of the configuration scan, of the files before
    the file, of the file's reference directives and of its imports before
    the import. *)
Definition editsBeforeImport {paths : PathArithmetic} (program : Program)
  (externalPathUpdater : ExternalPathUpdater)
  (internalPathUpdater : InternalPathUpdater)
  (oldPath newPath : string) (host : LanguageServiceHost)
  (filesBefore : list SourceFile) (sourceFile : SourceFile)
  (importsBefore : list StringLiteralLike) : list TextEdit :=
  (configScanEdits program externalPathUpdater
   ++ flat_map (sourceFileEdits program externalPathUpdater internalPathUpdater
                  oldPath newPath host) filesBefore
   ++ referenceEdits externalPathUpdater sourceFile
   ++ flat_map (importEdit program externalPathUpdater host sourceFile)
               importsBefore)%list.

(** The edits the computation records after that import: those of the
    file's later imports and of the files after the file. *)
Definition editsAfterImport {paths : PathArithmetic} (program : Program)
  (externalPathUpdater : ExternalPathUpdater)
  (internalPathUpdater : InternalPathUpdater)
  (oldPath newPath : string) (host : LanguageServiceHost)
  (sourceFile : SourceFile) (importsAfter : list StringLiteralLike)
  (filesAfter : list SourceFile) : list TextEdit :=
  (flat_map (importEdit program externalPathUpdater host sourceFile) importsAfter
   ++ flat_map (sourceFileEdits program externalPathUpdater internalPathUpdater
                  oldPath newPath host) filesAfter)%list.

(** The external updater stops at a failed assertion on a reference
    directive or on an import of the file. *)
Definition failsOnFile {paths : PathArithmetic} (program : Program)
  (externalPathUpdater : ExternalPathUpdater) (host : LanguageServiceHost)
  (sourceFile : SourceFile) : Prop :=
  (exists ref,
      In ref (referencedFiles sourceFile)
      /\ externalPathUpdater
           (resolveTripleslashReference (reference_fileName ref)
              (fileName sourceFile))
           (reference_fileName ref) false
         = AssertionFailure)
  \/ (exists literal,
         In literal (imports sourceFile)
         /\ updateImportOfUnmovedFile program externalPathUpdater host sourceFile
              (text literal)
            = AssertionFailure).

(** The number of references, imports and configuration entries of a
    project: the places an edit can be recorded for. *)
Definition editablePlaces (program : Program) : nat :=
  match configFile program with
  | Some config => List.length (configStringEntries config)
  | None => 0
  end
  + list_sum (map (fun sourceFile =>
                     List.length (referencedFiles sourceFile)
                     + List.length (imports sourceFile))
                  (getSourceFiles program)).

(** "/p/a.ts" imports "./dir/b/", written with a trailing separator, which
    resolves to the index file of the directory "/p/dir/b". *)
Definition exampleTrailingSeparatorFile : SourceFile :=
  {| fileName := "/p/a.ts"; referencedFiles := [];
     imports := [ {| text := "./dir/b/"; getStart := 14; node_end := 24 |} ] |}.

Definition exampleTrailingSeparatorProgram : Program :=
  {| configFile := None;
     getSourceFiles := [exampleTrailingSeparatorFile];
     getResolvedModuleWithFailedLookupLocationsFromCache :=
       fun importText containingFile =>
         if String.eqb importText "./dir/b/" && String.eqb containingFile "/p/a.ts"
         then Some {| resolvedModule := Some "/p/dir/b/index.ts";
                      failedLookupLocations := [] |}
         else None |}.

(** The same import when its resolution fails: the program's cache holds the
    candidates that were tried. *)
Definition exampleTrailingSeparatorFailedProgram : Program :=
  {| configFile := None;
     getSourceFiles := [exampleTrailingSeparatorFile];
     getResolvedModuleWithFailedLookupLocationsFromCache :=
       fun importText containingFile =>
         if String.eqb importText "./dir/b/" && String.eqb containingFile "/p/a.ts"
         then Some {| resolvedModule := None;
                      failedLookupLocations :=
                        ["/p/other/b.ts"; "/p/dir/b/package.json";
                         "/p/dir/package.json"] |}
         else None |}.

(** "/p/a.ts" imports "./x": a file that is renamed within its directory. *)
Definition exampleSiblingImportFile : SourceFile :=
  {| fileName := "/p/a.ts"; referencedFiles := [];
     imports := [ {| text := "./x"; getStart := 14; node_end := 19 |} ] |}.

(** A project in which nothing refers to "/p/old.ts": "/p/a.ts" has a
    reference directive to "./types.d.ts" and imports "./other", which
    resolves to "/p/other.ts", and the configuration lists "/p/a.ts". *)
Definition exampleUnrelatedFile : SourceFile :=
  {| fileName := "/p/a.ts";
     referencedFiles :=
       [ {| reference_range := createTextRange 21 33;
            reference_fileName := "./types.d.ts" |} ];
     imports := [ {| text := "./other"; getStart := 50; node_end := 59 |} ] |}.

Definition exampleUnrelatedProgram : Program :=
  {| configFile :=
       Some {| config_fileName := "/p/tsconfig.json";
               config_properties :=
                 [ {| property_name := "files"; initializer :=
                        ArrayLiteralExpression
                          [ StringLiteral {| text := "/p/a.ts"; getStart := 12;
                                             node_end := 21 |} ] |} ] |};
     getSourceFiles := [exampleUnrelatedFile];
     getResolvedModuleWithFailedLookupLocationsFromCache :=
       fun importText containingFile =>
         if String.eqb importText "./other" && String.eqb containingFile "/p/a.ts"
         then Some {| resolvedModule := Some "/p/other.ts";
                      failedLookupLocations := [] |}
         else None |}.

(** A project with a moved file between two files that are not moved. *)
Definition exampleMixedProgram : Program :=
  {| configFile := None;
     getSourceFiles :=
       [ {| fileName := "/p/a.ts"; referencedFiles := [];
            imports := [ {| text := "./dir/inner"; getStart := 14;
                            node_end := 27 |} ] |};
         {| fileName := "/p/dir/inner.ts"; referencedFiles := [];
            imports := [ {| text := "../outside"; getStart := 14;
                            node_end := 26 |} ] |};
         {| fileName := "/p/outside.ts"; referencedFiles := []; imports := [] |} ];
     getResolvedModuleWithFailedLookupLocationsFromCache :=
       fun importText containingFile =>
         if String.eqb importText "./dir/inner" && String.eqb containingFile "/p/a.ts"
         then Some {| resolvedModule := Some "/p/dir/inner.ts";
                      failedLookupLocations := [] |}
         else None |}.

(** A host that resolves module names itself and exposes no cache. *)
Definition exampleResolvingHost : LanguageServiceHost :=
  {| useCaseSensitiveFileNames := Some true;
     resolveModuleNames := true;
     host_getResolvedModuleWithFailedLookupLocationsFromCache := None |}.

(** A file with a reference directive to "./dir/types.d.ts" and two
    imports. *)
Definition exampleReferencingFile : SourceFile :=
  {| fileName := "/p/a.ts";
     referencedFiles :=
       [ {| reference_range := createTextRange 21 37;
            reference_fileName := "./dir/types.d.ts" |} ];
     imports := [ {| text := "./old"; getStart := 54; node_end := 61 |};
                  {| text := "./other"; getStart := 76; node_end := 85 |} ] |}.

(** Closed facts about the example projects are settled by evaluation. *)
Ltac evaluates := vm_compute; reflexivity.

Ltac differs :=
  let H := fresh "H" in
  intros H; vm_compute in H; discriminate H.

(** An external updater that was built is the closure of lines 109-126
    over the relative path the library returned: [Hbuilt] says that
    [getExternalPathUpdater] returned the updater of the goal, [Hrel] what
    the library returned. *)
Ltac unfold_updater Hbuilt Hrel :=
  let H := fresh "H" in
  pose proof Hbuilt as H; unfold getExternalPathUpdater in H;
  rewrite Hrel in H; cbn [outcome_bind] in H; injection H as H;
  rewrite <- H; clear H; cbv beta.

(** ** Facts about the string primitives *)

Section StringFacts.

Lemma length_append (a b : string) :
  String.length (a ++ b) = String.length a + String.length b.
Proof. induction a as [|c a IH]; simpl; [reflexivity|now rewrite IH]. Qed.

Lemma append_nil_r (a : string) : a ++ "" = a.
Proof. induction a as [|c a IH]; simpl; [reflexivity|now rewrite IH]. Qed.

Lemma append_assoc (a b c : string) : (a ++ b) ++ c = a ++ (b ++ c).
Proof. induction a as [|x a IH]; simpl; [reflexivity|now rewrite IH]. Qed.

Lemma substring_all (s : string) : substring 0 (String.length s) s = s.
Proof. induction s as [|c s IH]; simpl; [reflexivity|now rewrite IH]. Qed.

Lemma substring_append_head (a b : string) :
  substring 0 (String.length a) (a ++ b) = a.
Proof.
  induction a as [|c a IH]; simpl.
  - destruct b; reflexivity.
  - now rewrite IH.
Qed.

Lemma substring_append_tail (a b : string) :
  substring (String.length a) (String.length b) (a ++ b) = b.
Proof.
  induction a as [|c a IH]; simpl.
  - apply substring_all.
  - exact IH.
Qed.

Lemma substring_split (n : nat) (s : string) :
  n <= String.length s ->
  s = substring 0 n s ++ substring n (String.length s - n) s.
Proof.
  revert n; induction s as [|c s IH]; intros n Hn; simpl in *.
  - destruct n; [reflexivity|lia].
  - destruct n as [|n]; simpl.
    + now rewrite substring_all.
    + f_equal. apply IH. lia.
Qed.

Lemma length_substring (n m : nat) (s : string) :
  n + m <= String.length s -> String.length (substring n m s) = m.
Proof.
  revert n m; induction s as [|c s IH]; intros n m H; simpl in *.
  - destruct n, m; simpl; lia.
  - destruct n as [|n].
    + destruct m as [|m]; simpl; [reflexivity|]. rewrite IH; lia.
    + apply IH. lia.
Qed.

Lemma prefix_append (p r : string) : String.prefix p (p ++ r) = true.
Proof.
  induction p as [|c p IH]; simpl.
  - now destruct r.
  - destruct (ascii_dec c c); [exact IH|congruence].
Qed.

Lemma prefix_inv (p s : string) :
  String.prefix p s = true -> exists r, s = p ++ r.
Proof.
  revert s; induction p as [|c p IH]; intros s H.
  - now exists s.
  - destruct s as [|d s]; [discriminate|]. simpl in H.
    destruct (ascii_dec c d) as [->|]; [|discriminate].
    destruct (IH _ H) as [r ->]. now exists r.
Qed.

Lemma append_inj_l (p a b : string) : p ++ a = p ++ b -> a = b.
Proof.
  induction p as [|c p IH]; simpl; intros H; [exact H|].
  injection H as H. auto.
Qed.

Lemma append_inj_r (a b s : string) : a ++ s = b ++ s -> a = b.
Proof.
  revert b; induction a as [|c a IH]; intros b H.
  - destruct b as [|d b]; [reflexivity|].
    apply (f_equal String.length) in H. simpl in H.
    rewrite length_append in H. lia.
  - destruct b as [|d b].
    + apply (f_equal String.length) in H. simpl in H.
      rewrite length_append in H. lia.
    + simpl in H. injection H as -> H. f_equal. auto.
Qed.

(** [tryRemovePrefix] succeeds exactly on the strings [pre ++ r], and then
    returns [r]. *)
Lemma tryRemovePrefix_Some (str pre r : string) :
  tryRemovePrefix str pre = Some r <-> str = pre ++ r.
Proof.
  unfold tryRemovePrefix, startsWith. split.
  - destruct (String.prefix pre str) eqn:E; [|discriminate].
    destruct (prefix_inv _ _ E) as [r' ->]. intros H.
    rewrite length_append, Nat.add_comm, Nat.add_sub in H.
    rewrite substring_append_tail in H. congruence.
  - intros ->. rewrite prefix_append.
    rewrite length_append, Nat.add_comm, Nat.add_sub.
    now rewrite substring_append_tail.
Qed.

Lemma tryRemovePrefix_None (str pre : string) :
  tryRemovePrefix str pre = None <-> forall r, str <> pre ++ r.
Proof.
  split.
  - intros H r Hr. apply tryRemovePrefix_Some in Hr. congruence.
  - intros H. destruct (tryRemovePrefix str pre) as [r|] eqn:E; [|reflexivity].
    apply tryRemovePrefix_Some in E. now elim (H r).
Qed.

Lemma endsWith_append (r suffix : string) : endsWith (r ++ suffix) suffix = true.
Proof.
  unfold endsWith. rewrite length_append.
  replace (String.length r + String.length suffix - String.length suffix)
    with (String.length r) by lia.
  rewrite substring_append_tail, String.eqb_refl.
  rewrite andb_true_r. apply Nat.leb_le. lia.
Qed.

Lemma endsWith_inv (str suffix : string) :
  endsWith str suffix = true ->
  str = substring 0 (String.length str - String.length suffix) str ++ suffix.
Proof.
  unfold endsWith. intros H. apply andb_prop in H as [Hl He].
  apply Nat.leb_le in Hl. apply String.eqb_eq in He.
  pose proof (substring_split (String.length str - String.length suffix) str)
    as Hs.
  replace (String.length str - (String.length str - String.length suffix))
    with (String.length suffix) in Hs by lia.
  rewrite He in Hs. apply Hs. lia.
Qed.

(** [tryRemoveSuffix] succeeds exactly on the strings [r ++ suffix], and
    then returns [r]. *)
Lemma tryRemoveSuffix_Some (str suffix r : string) :
  tryRemoveSuffix str suffix = Some r <-> str = r ++ suffix.
Proof.
  unfold tryRemoveSuffix. split.
  - destruct (endsWith str suffix) eqn:E; [|discriminate].
    intros H. injection H as <-. now apply endsWith_inv.
  - intros ->. rewrite endsWith_append, length_append, Nat.add_sub.
    now rewrite substring_append_head.
Qed.

Lemma tryRemoveSuffix_None (str suffix : string) :
  tryRemoveSuffix str suffix = None <-> forall r, str <> r ++ suffix.
Proof.
  split.
  - intros H r Hr. apply tryRemoveSuffix_Some in Hr. congruence.
  - intros H. destruct (tryRemoveSuffix str suffix) as [r|] eqn:E; [|reflexivity].
    apply tryRemoveSuffix_Some in E. now elim (H r).
Qed.

(** Two decompositions of one string: one of the tails is a tail of the
    other. *)
Lemma append_eq_tails (a x b y : string) :
  a ++ x = b ++ y -> (exists z, x = z ++ y) \/ (exists z, y = z ++ x).
Proof.
  revert b; induction a as [|c a IH]; intros b H; simpl in H.
  - left. now exists b.
  - destruct b as [|d b]; simpl in H.
    + right. exists (String c a). now rewrite <- H.
    + injection H as _ H. eauto.
Qed.

Lemma firstDefined_None {T U} (array : list T) (callback : T -> option U) :
  firstDefined array callback = None <->
  forall x, In x array -> callback x = None.
Proof.
  induction array as [|x rest IH]; simpl.
  - split; [intros _ x []|reflexivity].
  - destruct (callback x) eqn:E.
    + split; [discriminate|]. intros H. rewrite (H x) in E by auto. discriminate.
    + rewrite IH. split.
      * intros H y [<-|Hy]; auto.
      * intros H y Hy. auto.
Qed.

Lemma firstDefined_Some {T U} (array : list T) (callback : T -> option U) r :
  firstDefined array callback = Some r <->
  exists pre x post,
    array = (pre ++ x :: post)%list
    /\ (forall y, In y pre -> callback y = None)
    /\ callback x = Some r.
Proof.
  induction array as [|x rest IH]; simpl.
  - split; [discriminate|]. intros (pre & y & post & H & _).
    destruct pre; discriminate.
  - destruct (callback x) eqn:E.
    + split.
      * intros H. exists [], x, rest. repeat split; [intros ? []|congruence].
      * intros (pre & y & post & H & Hpre & Hy).
        destruct pre as [|p pre]; simpl in H; injection H as <- ->.
        -- congruence.
        -- rewrite (Hpre x) in E by (now left). discriminate.
    + rewrite IH. split.
      * intros (pre & y & post & -> & Hpre & Hy).
        exists (x :: pre), y, post. repeat split; auto.
        intros z [<-|Hz]; auto.
      * intros (pre & y & post & H & Hpre & Hy).
        destruct pre as [|p pre]; simpl in H; injection H as <- ->.
        -- congruence.
        -- exists pre, y, post. repeat split; auto.
           intros z Hz. apply Hpre. now right.
Qed.

End StringFacts.

Lemma startsWith_separator (s : string) :
  startsWith s "/" = true <-> exists rest, s = "/" ++ rest.
Proof.
  unfold startsWith. split.
  - intros H. apply prefix_inv in H. exact H.
  - intros [rest ->]. apply prefix_append.
Qed.

Lemma removeDirectoryPrefixFromPath_Some (directory path suffix : string) :
  removeDirectoryPrefixFromPath directory path = Some suffix <->
  path = directory ++ suffix /\ startsWith suffix "/" = true.
Proof.
  unfold removeDirectoryPrefixFromPath. split.
  - destruct (tryRemovePrefix path directory) as [w|] eqn:E; [|discriminate].
    destruct (startsWith w "/") eqn:Hw; simpl; [|discriminate].
    intros H. injection H as <-. split; [|exact Hw].
    now apply tryRemovePrefix_Some.
  - intros [Hp Hs]. apply tryRemovePrefix_Some in Hp. rewrite Hp.
    now rewrite Hs.
Qed.

Lemma removeDirectoryPrefixFromPath_None (directory path : string) :
  removeDirectoryPrefixFromPath directory path = None <->
  forall rest, path <> directory ++ "/" ++ rest.
Proof.
  split.
  - intros H rest Hp.
    assert (removeDirectoryPrefixFromPath directory path = Some ("/" ++ rest)) as E.
    { apply removeDirectoryPrefixFromPath_Some. split; [exact Hp|].
      apply startsWith_separator. now exists rest. }
    congruence.
  - intros H.
    destruct (removeDirectoryPrefixFromPath directory path) as [w|] eqn:E;
      [|reflexivity].
    apply removeDirectoryPrefixFromPath_Some in E as [Hp Hs].
    apply startsWith_separator in Hs as [rest ->]. now elim (H rest).
Qed.

(** What [removeDirectoryPrefixFromPath] returns is never falsy. *)
Lemma truthy_removeDirectoryPrefixFromPath (directory path : string) :
  truthy (removeDirectoryPrefixFromPath directory path) = true <->
  exists rest, path = directory ++ "/" ++ rest.
Proof.
  destruct (removeDirectoryPrefixFromPath directory path) as [w|] eqn:E; simpl.
  - apply removeDirectoryPrefixFromPath_Some in E as [Hp Hs].
    apply startsWith_separator in Hs as [rest ->]. simpl.
    split; [intros _; now exists rest|reflexivity].
  - split; [discriminate|]. intros [rest Hp].
    rewrite removeDirectoryPrefixFromPath_None in E. now elim (E rest).
Qed.

(** C6: [removeDirectoryPrefixFromPath directory path] returns the suffix of
    [path] after [directory] exactly when [path] is [directory] followed by
    a suffix that starts at a separator, and returns no match otherwise; a
    sibling whose name merely starts with the directory's name does not
    match: "/project/foobar/x" is not inside "/project/foo". *)
Theorem removeDirectoryPrefixFromPath_separator_boundary :
  forall directory path : string,
    (forall suffix,
        removeDirectoryPrefixFromPath directory path = Some suffix <->
        path = directory ++ suffix /\ exists rest, suffix = "/" ++ rest)
    /\ (removeDirectoryPrefixFromPath directory path = None <->
        forall rest, path <> directory ++ "/" ++ rest)
    /\ removeDirectoryPrefixFromPath "/project/foo" "/project/foobar/x" = None.
Proof.
  intros directory path. split; [|split].
  - intros suffix. rewrite removeDirectoryPrefixFromPath_Some.
    now rewrite startsWith_separator.
  - apply removeDirectoryPrefixFromPath_None.
  - reflexivity.
Qed.

Lemma removeDirectoryPrefixFromPath_separator_boundary_witness :
  removeDirectoryPrefixFromPath "/project/foo" "/project/foo/bar/x" = Some "/bar/x"
  /\ removeDirectoryPrefixFromPath "/project/foo" "/project/foo" = None.
Proof.
  split.
  - apply (proj1 (removeDirectoryPrefixFromPath_separator_boundary
                    "/project/foo" "/project/foo/bar/x")).
    split; [reflexivity|]. now exists "bar/x".
  - apply (proj1 (proj2 (removeDirectoryPrefixFromPath_separator_boundary
                           "/project/foo" "/project/foo"))).
    intros rest H. apply (f_equal String.length) in H.
    rewrite length_append in H. simpl in H. lia.
Defined.

(** ** The module-specifier form *)

Lemma tryRemoveSuffix_other_ending (stem e e' : string) :
  endsWith e e' = false -> endsWith e' e = false ->
  tryRemoveSuffix (stem ++ e) e' = None.
Proof.
  intros H1 H2. apply tryRemoveSuffix_None. intros r Hr.
  destruct (append_eq_tails _ _ _ _ Hr) as [[z ->]|[z ->]].
  - now rewrite endsWith_append in H1.
  - now rewrite endsWith_append in H2.
Qed.

Lemma tryRemoveSuffix_same (stem e : string) :
  tryRemoveSuffix (stem ++ e) e = Some stem.
Proof. now apply tryRemoveSuffix_Some. Qed.

(** The index endings exclude each other: a name that ends with one of them
    loses exactly that one. *)
Lemma tryRemoveIndexOrPackage_ending (stem e : string) :
  In e indexEndings -> tryRemoveIndexOrPackage (stem ++ e) = Some stem.
Proof.
  unfold tryRemoveIndexOrPackage, indexEndings. intros H.
  repeat (destruct H as [<-|H]); try contradiction; cbn [firstDefined];
    repeat (rewrite tryRemoveSuffix_other_ending by reflexivity);
    now rewrite tryRemoveSuffix_same.
Qed.

Lemma tryRemoveIndexOrPackage_Some (name stem : string) :
  tryRemoveIndexOrPackage name = Some stem <->
  exists e, In e indexEndings /\ name = stem ++ e.
Proof.
  split.
  - unfold tryRemoveIndexOrPackage. intros H.
    apply firstDefined_Some in H as (pre & e & post & Hl & _ & He).
    exists e. split.
    + rewrite Hl. apply in_or_app. right. now left.
    + now apply tryRemoveSuffix_Some.
  - intros (e & He & ->). now apply tryRemoveIndexOrPackage_ending.
Qed.

Lemma tryRemoveIndexOrPackage_None (name : string) :
  tryRemoveIndexOrPackage name = None <->
  forall e, In e indexEndings -> endsWith name e = false.
Proof.
  unfold tryRemoveIndexOrPackage. rewrite firstDefined_None.
  split; intros H e He; specialize (H e He); unfold tryRemoveSuffix in *.
  - destruct (endsWith name e); [discriminate|reflexivity].
  - now rewrite H.
Qed.

Section ModuleSpecifier.

Context {paths : PathArithmetic}.

Lemma pathToImportPath_ending (stem e : string) :
  In e indexEndings -> pathToImportPath (stem ++ e) = stem.
Proof.
  intros H. unfold pathToImportPath.
  now rewrite tryRemoveIndexOrPackage_ending.
Qed.

Lemma pathToImportPath_no_ending (name : string) :
  (forall e, In e indexEndings -> endsWith name e = false) ->
  pathToImportPath name = removeFileExtension name.
Proof.
  intros H. unfold pathToImportPath.
  now rewrite (proj2 (tryRemoveIndexOrPackage_None name) H).
Qed.

End ModuleSpecifier.

(** ** The external path updater, once built *)

Lemma truthy_tryRemoveIndexOrPackage (name : string) :
  truthy (tryRemoveIndexOrPackage name) = true <->
  exists stem e, In e indexEndings /\ name = stem ++ e /\ stem <> "".
Proof.
  destruct (tryRemoveIndexOrPackage name) as [stem|] eqn:E; simpl.
  - apply tryRemoveIndexOrPackage_Some in E as (e & He & ->).
    destruct (String.eqb_spec stem "") as [->|Hne]; simpl.
    + split; [discriminate|]. intros (stem' & e' & He' & Hname & Hne).
      change ("" ++ e) with e in Hname.
      pose proof (tryRemoveIndexOrPackage_ending "" e He) as E1.
      change ("" ++ e) with e in E1.
      pose proof (tryRemoveIndexOrPackage_ending stem' e' He') as E2.
      rewrite <- Hname in E2. congruence.
    + split; [|reflexivity]. intros _. now exists stem, e.
  - split; [discriminate|]. intros (stem & e & He & -> & _).
    now rewrite tryRemoveIndexOrPackage_ending in E.
Qed.

Lemma append_not_shorter (a b : string) : a <> a ++ "/" ++ b.
Proof.
  intros H. apply (f_equal String.length) in H.
  rewrite length_append in H. simpl in H. lia.
Qed.

Lemma pathIsRelative_inside (oldPath rest : string) :
  pathIsRelative oldPath = false ->
  pathIsRelative (oldPath ++ "/" ++ rest) = false.
Proof.
  intros H.
  destruct oldPath as [|c oldPath]; [reflexivity|].
  cbn in H |- *. destruct (Ascii.eqb c "."); [|reflexivity].
  destruct oldPath as [|d oldPath]; [discriminate|].
  cbn in H |- *. destruct (isDirectorySeparator d); [discriminate|].
  destruct (Ascii.eqb d "."); [|reflexivity].
  destruct oldPath as [|e oldPath]; [discriminate|].
  exact H.
Qed.

Lemma rewrittenEntry_Some (oldPath newPath entry replacement : string) :
  rewrittenEntry oldPath newPath entry = Some replacement <->
  (entry = oldPath /\ replacement = newPath)
  \/ (entry <> oldPath
      /\ exists rest, entry = oldPath ++ "/" ++ rest
                      /\ replacement = newPath ++ "/" ++ rest).
Proof.
  unfold rewrittenEntry. destruct (String.eqb_spec entry oldPath) as [->|Hne].
  - split.
    + intros H. injection H as <-. now left.
    + intros [[_ ->]|[Hne _]]; [reflexivity|congruence].
  - destruct (removeDirectoryPrefixFromPath oldPath entry) as [suffix|] eqn:E.
    + apply removeDirectoryPrefixFromPath_Some in E as [Hp Hs].
      apply startsWith_separator in Hs as [rest ->]. split.
      * intros H. injection H as <-. right. split; [exact Hne|]. now exists rest.
      * intros [[He _]|(_ & rest' & He & ->)]; [congruence|].
        rewrite Hp in He. apply append_inj_l in He. now rewrite He.
    + split; [discriminate|].
      intros [[He _]|(_ & rest & He & _)]; [congruence|].
      rewrite removeDirectoryPrefixFromPath_None in E. now elim (E rest).
Qed.

Lemma getExternalPathUpdater_rel {paths : PathArithmetic}
  (oldPath newPath : string) (host : LanguageServiceHost)
  (updater : ExternalPathUpdater) :
  getExternalPathUpdater oldPath newPath host = Returned updater ->
  exists rel,
    getRelativePathFromFile oldPath newPath
      (createGetCanonicalFileName (hostUsesCaseSensitiveFileNames host))
    = Returned rel.
Proof.
  unfold getExternalPathUpdater.
  destruct (getRelativePathFromFile oldPath newPath _) as [rel|];
    [eauto|discriminate].
Qed.

Lemma getExternalPathUpdater_not_built {paths : PathArithmetic}
  (oldPath newPath : string) (host : LanguageServiceHost) :
  getExternalPathUpdater oldPath newPath host = AssertionFailure <->
  getRelativePathFromFile oldPath newPath
    (createGetCanonicalFileName (hostUsesCaseSensitiveFileNames host))
  = AssertionFailure.
Proof.
  unfold getExternalPathUpdater.
  destruct (getRelativePathFromFile oldPath newPath _) as [rel|];
    split; (discriminate || reflexivity).
Qed.

Lemma getExternalPathUpdater_builds {paths : PathArithmetic}
  (oldPath newPath : string) (host : LanguageServiceHost) (rel : string) :
  getRelativePathFromFile oldPath newPath
    (createGetCanonicalFileName (hostUsesCaseSensitiveFileNames host))
  = Returned rel ->
  exists updater, getExternalPathUpdater oldPath newPath host = Returned updater.
Proof.
  intros Hrel. unfold getExternalPathUpdater. rewrite Hrel. simpl. eauto.
Qed.

(** What holds of an external updater that was built, with the relative
    path it was built on. *)
Section BuiltExternalUpdater.

Context {paths : PathArithmetic}.

Variables (oldPath newPath : string) (host : LanguageServiceHost).
Variables (rel : string) (updater : ExternalPathUpdater).

Hypothesis Hrel :
  getRelativePathFromFile oldPath newPath
    (createGetCanonicalFileName (hostUsesCaseSensitiveFileNames host))
  = Returned rel.

Hypothesis Hbuilt : getExternalPathUpdater oldPath newPath host = Returned updater.

(** The replacement of a raw reference ([isImport = false]) is built without
    [pathToImportPath]. *)
Lemma getExternalPathUpdater_raw (fullPath importText : string) :
  updater fullPath importText false =
  if String.eqb fullPath oldPath then
    Returned (Some
      (if pathIsRelative importText
       then combinePathsSafe
              (if truthy (tryRemoveIndexOrPackage fullPath)
                  && negb (endsWithSomeIndex importText)
               then importText else getDirectoryPath importText) rel
       else newPath))
  else
    match removeDirectoryPrefixFromPath oldPath fullPath with
    | None => Returned None
    | Some relToOld =>
        if pathIsRelative importText then
          match tryRemoveSuffix importText relToOld with
          | Some stripped =>
              Returned (Some (combinePathsSafe (getDirectoryPath stripped) rel
                              ++ relToOld))
          | None => AssertionFailure
          end
        else Returned (Some (newPath ++ relToOld))
    end.
Proof.
  unfold_updater Hbuilt Hrel.
  destruct (String.eqb fullPath oldPath); [reflexivity|].
  destruct (removeDirectoryPrefixFromPath oldPath fullPath) as [relToOld|];
    [|reflexivity].
  destruct (pathIsRelative importText); [|reflexivity].
  now destruct (tryRemoveSuffix importText relToOld).
Qed.

(** The updater on the old path itself. *)
Lemma getExternalPathUpdater_exact (importText : string) (isImport : bool) :
  updater oldPath importText isImport =
  let newImportText :=
    if pathIsRelative importText
    then combinePathsSafe
           (if truthy (tryRemoveIndexOrPackage oldPath)
               && negb (endsWithSomeIndex importText)
            then importText else getDirectoryPath importText) rel
    else newPath in
  Returned (Some (if isImport then pathToImportPath newImportText
                  else newImportText)).
Proof. unfold_updater Hbuilt Hrel. now rewrite String.eqb_refl. Qed.

(** The updater on a path that is not the old path itself. *)
Lemma getExternalPathUpdater_other (fullPath importText : string) (isImport : bool) :
  fullPath <> oldPath ->
  updater fullPath importText isImport =
  match removeDirectoryPrefixFromPath oldPath fullPath with
  | None => Returned None
  | Some relToOld =>
      let suffix := if isImport then pathToImportPath relToOld else relToOld in
      if pathIsRelative importText then
        match tryRemoveSuffix importText suffix with
        | Some stripped =>
            Returned (Some (combinePathsSafe (getDirectoryPath stripped) rel
                            ++ suffix))
        | None => AssertionFailure
        end
      else Returned (Some (newPath ++ suffix))
  end.
Proof.
  intros Hne. apply String.eqb_neq in Hne.
  unfold_updater Hbuilt Hrel. rewrite Hne.
  destruct (removeDirectoryPrefixFromPath oldPath fullPath) as [relToOld|];
    [|reflexivity].
  cbv zeta. destruct (pathIsRelative importText); [|reflexivity].
  now destruct (tryRemoveSuffix importText _).
Qed.

Lemma getExternalPathUpdater_failure (fullPath importText : string)
  (isImport : bool) :
  updater fullPath importText isImport = AssertionFailure <->
  fullPath <> oldPath
  /\ pathIsRelative importText = true
  /\ exists relToOld,
       removeDirectoryPrefixFromPath oldPath fullPath = Some relToOld
       /\ forall stripped,
            importText
            <> stripped ++ (if isImport then pathToImportPath relToOld
                            else relToOld).
Proof.
  destruct (String.eqb_spec fullPath oldPath) as [->|Hne].
  - rewrite getExternalPathUpdater_exact. split; [discriminate|].
    intros [H _]. congruence.
  - rewrite getExternalPathUpdater_other by exact Hne. cbv zeta.
    destruct (removeDirectoryPrefixFromPath oldPath fullPath) as [relToOld|].
    + destruct (pathIsRelative importText).
      * destruct (tryRemoveSuffix importText _) as [stripped|] eqn:E.
        -- split; [discriminate|].
           intros (_ & _ & r & Hr & Hnone). injection Hr as <-.
           apply tryRemoveSuffix_Some in E. now elim (Hnone stripped).
        -- split; [|reflexivity]. intros _. repeat split; [exact Hne|].
           exists relToOld. split; [reflexivity|].
           now apply tryRemoveSuffix_None.
      * split; [discriminate|]. intros (_ & H & _). discriminate H.
    + split; [discriminate|]. intros (_ & _ & r & Hr & _). discriminate Hr.
Qed.

Lemma getExternalPathUpdater_no_change (fullPath importText : string)
  (isImport : bool) :
  updater fullPath importText isImport = Returned None <->
  fullPath <> oldPath /\ forall rest, fullPath <> oldPath ++ "/" ++ rest.
Proof.
  destruct (String.eqb_spec fullPath oldPath) as [->|Hne].
  - rewrite getExternalPathUpdater_exact. split; [discriminate|].
    intros [H _]. congruence.
  - rewrite getExternalPathUpdater_other by exact Hne. cbv zeta.
    rewrite <- removeDirectoryPrefixFromPath_None.
    destruct (removeDirectoryPrefixFromPath oldPath fullPath) as [relToOld|].
    + split; [|intros [_ H]; discriminate H].
      destruct (pathIsRelative importText); [|discriminate].
      destruct (tryRemoveSuffix importText _); discriminate.
    + split; [now split|reflexivity].
Qed.

(** On a configuration entry the updater is [rewrittenEntry], as long as the
    old path is not a relative path. *)
Lemma getExternalPathUpdater_entry (entry : string) :
  pathIsRelative oldPath = false ->
  updater entry entry false = Returned (rewrittenEntry oldPath newPath entry).
Proof.
  intros Hold. rewrite getExternalPathUpdater_raw.
  unfold rewrittenEntry.
  destruct (String.eqb_spec entry oldPath) as [->|Hne].
  - now rewrite Hold.
  - destruct (removeDirectoryPrefixFromPath oldPath entry) as [suffix|] eqn:E;
      [|reflexivity].
    apply removeDirectoryPrefixFromPath_Some in E as [Hp Hs].
    apply startsWith_separator in Hs as [rest ->].
    rewrite Hp at 1. now rewrite pathIsRelative_inside.
Qed.

(** On a configuration entry, which is passed as resolved path and as
    original text at once, the assertion cannot fail. *)
Lemma getExternalPathUpdater_entry_returns (entry : string) :
  updater entry entry false <> AssertionFailure.
Proof.
  intros H. apply getExternalPathUpdater_failure in H
    as (_ & _ & relToOld & Hrel' & Hnone).
  apply removeDirectoryPrefixFromPath_Some in Hrel' as [Hentry _].
  now elim (Hnone oldPath).
Qed.

End BuiltExternalUpdater.



(** ** What the tracker holds after the loops *)

Section TrackerFacts.

Import ChangeTracker.

Lemma forOf_emits {T} (xs : list T) (body : T -> M unit)
  (emit : T -> list TextEdit) :
  (forall x changes, In x xs ->
     body x changes = Returned (tt, (changes ++ emit x)%list)) ->
  forall changes,
    forOf xs body changes = Returned (tt, (changes ++ flat_map emit xs)%list).
Proof.
  induction xs as [|x xs IH]; intros H changes; simpl.
  - unfold ret. now rewrite app_nil_r.
  - unfold bind. rewrite H by now left.
    rewrite IH by (intros; apply H; now right).
    now rewrite <- app_assoc.
Qed.

Lemma forOf_appends {T} (P : TextEdit -> Prop) (xs : list T) (body : T -> M unit) :
  (forall x changes u changes', In x xs ->
     body x changes = Returned (u, changes') ->
     exists es, changes' = (changes ++ es)%list /\ Forall P es) ->
  forall changes u changes',
    forOf xs body changes = Returned (u, changes') ->
    exists es, changes' = (changes ++ es)%list /\ Forall P es.
Proof.
  induction xs as [|x xs IH]; intros H changes u changes' Hrun; simpl in Hrun.
  - unfold ret in Hrun. injection Hrun as _ <-.
    exists []. now rewrite app_nil_r.
  - unfold bind in Hrun.
    destruct (body x changes) as [[u1 c1]|] eqn:Hx; [|discriminate].
    destruct (H x changes u1 c1 (or_introl eq_refl) Hx) as (es1 & -> & P1).
    destruct (IH (fun y c v c' Hy => H y c v c' (or_intror Hy)) _ _ _ Hrun)
      as (es2 & -> & P2).
    exists (es1 ++ es2)%list. split; [now rewrite app_assoc|].
    apply Forall_app. now split.
Qed.

Lemma recordUpdate_run (file : string) (range : TextRange)
  (updated : outcome (option string)) (changes : t) :
  recordUpdate file range updated changes =
  match updated with
  | Returned (Some u) =>
      Returned (tt, (changes ++ [ {| edit_fileName := file; edit_range := range;
                                     newText := u |} ])%list)
  | Returned None => Returned (tt, changes)
  | AssertionFailure => AssertionFailure
  end.
Proof. now destruct updated as [[u|]|]. Qed.

Lemma recordUpdate_appends (file : string) (range : TextRange)
  (updated : outcome (option string)) (changes : t) (u : unit) (changes' : t) :
  recordUpdate file range updated changes = Returned (u, changes') ->
  exists es, changes' = (changes ++ es)%list
             /\ Forall (fun e => edit_fileName e = file /\ edit_range e = range) es.
Proof.
  rewrite recordUpdate_run. destruct updated as [[r|]|]; intros H;
    try discriminate; injection H as _ <-.
  - eexists. split; [reflexivity|]. now repeat constructor.
  - exists []. now rewrite app_nil_r.
Qed.

Lemma substring_skip_head (a b : string) (n m : nat) :
  substring (String.length a + n) m (a ++ b) = substring n m b.
Proof. induction a as [|c a IH]; simpl; [reflexivity|exact IH]. Qed.

End TrackerFacts.

(** C10: every edit recorded for an import string literal, and every edit
    recorded for a string entry of the configuration file, has the range
    from the literal's start plus one to the literal's end minus one; in a
    file text where the literal is a quote, a body and a quote, that range
    holds exactly the body, so the quotes are never replaced. *)
Theorem string_edits_lie_between_the_quotes :
  (forall sourceFile updateRef updateImport changes changes',
      updateImportsWorker sourceFile updateRef updateImport changes
      = Returned (tt, changes') ->
      exists refEdits importEdits,
        changes' = (changes ++ refEdits ++ importEdits)%list
        /\ Forall (fun e => exists ref, In ref (referencedFiles sourceFile)
                                        /\ edit_range e = reference_range ref)
                  refEdits
        /\ Forall (fun e => exists literal,
                       In literal (imports sourceFile)
                       /\ edit_range e
                          = createTextRange (getStart literal + 1)
                                            (node_end literal - 1))
                  importEdits)
  /\ (forall program config pathUpdater changes changes',
        configFile program = Some config ->
        updateTsconfigFiles program pathUpdater changes = Returned (tt, changes') ->
        exists edits,
          changes' = (changes ++ edits)%list
          /\ Forall (fun e => exists literal,
                         In literal (configStringEntries config)
                         /\ edit_range e
                            = createTextRange (getStart literal + 1)
                                              (node_end literal - 1))
                    edits)
  /\ (forall (before body after : string) (quote : ascii) literal,
        getStart literal = Z.of_nat (String.length before) ->
        node_end literal = (getStart literal + Z.of_nat (String.length body) + 2)%Z ->
        let range := createStringRange literal in
        substring (Z.to_nat (pos range)) (Z.to_nat (end_ range - pos range))
                  (before ++ String quote (body ++ String quote after))
        = body).
Proof.
  split; [|split].
  - intros sourceFile updateRef updateImport changes changes' Hrun.
    unfold updateImportsWorker, ChangeTracker.bind in Hrun.
    match type of Hrun with
    | match ?refs changes with _ => _ end = _ =>
        destruct (refs changes) as [[u1 c1]|] eqn:Hrefs; [|discriminate]
    end.
    eapply (forOf_appends
              (fun e => exists ref, In ref (referencedFiles sourceFile)
                                    /\ edit_range e = reference_range ref))
      in Hrefs as (refEdits & -> & Prefs).
    + eapply (forOf_appends
                (fun e => exists literal,
                     In literal (imports sourceFile)
                     /\ edit_range e = createTextRange (getStart literal + 1)
                                                       (node_end literal - 1)))
        in Hrun as (importEdits & -> & Pimports).
      * exists refEdits, importEdits. rewrite <- app_assoc. auto.
      * intros literal c u c' Hin Hstep.
        apply (recordUpdate_appends (fileName sourceFile)
                 (createStringRange literal)) in Hstep as (es & -> & Hes).
        exists es. split; [reflexivity|].
        eapply Forall_impl; [|exact Hes]. intros e [_ He]. now exists literal.
    + intros ref c u c' Hin Hstep.
      apply (recordUpdate_appends (fileName sourceFile) (reference_range ref))
        in Hstep as (es & -> & Hes).
      exists es. split; [reflexivity|].
      eapply Forall_impl; [|exact Hes]. intros e [_ He]. now exists ref.
  - intros program config pathUpdater changes changes' Hconfig Hrun.
    unfold updateTsconfigFiles in Hrun. rewrite Hconfig in Hrun.
    unfold configStringEntries.
    eapply forOf_appends in Hrun; [exact Hrun|].
    intros property c u c' Hin Hstep. cbv beta in Hstep.
    destruct (initializer property) as [| elements |] eqn:Hinit;
      try (injection Hstep as _ <-; exists []; now rewrite app_nil_r).
    eapply forOf_appends in Hstep; [exact Hstep|].
    intros element c0 u0 c0' Hel Hstep0. cbv beta in Hstep0.
    destruct element as [literal | |];
      try (injection Hstep0 as _ <-; exists []; now rewrite app_nil_r).
    apply (recordUpdate_appends (config_fileName config)
             (createStringRange literal)) in Hstep0 as (es & -> & Hes).
    exists es. split; [reflexivity|].
    eapply Forall_impl; [|exact Hes]. intros e [_ He]. exists literal.
    split; [|exact He].
    apply in_flat_map. exists property. split; [exact Hin|].
    rewrite Hinit. apply in_flat_map. exists (StringLiteral literal).
    split; [exact Hel|now left].
  - intros before body after quote literal Hstart Hend range.
    subst range. unfold createStringRange. cbn [pos end_].
    rewrite Hend, Hstart.
    replace (Z.to_nat (Z.of_nat (String.length before) + 1))
      with (String.length before + 1) by lia.
    replace (Z.to_nat
               (Z.of_nat (String.length before) + Z.of_nat (String.length body)
                + 2 - 1 - (Z.of_nat (String.length before) + 1)))
      with (String.length body) by lia.
    rewrite substring_skip_head. cbn [substring].
    apply substring_append_head.
Qed.

Lemma string_edits_lie_between_the_quotes_witness :
  (exists refEdits importEdits,
      [ {| edit_fileName := "/p/a.ts";
           edit_range := createTextRange 15 20;
           newText := "./new" |} ]
      = ([] ++ refEdits ++ importEdits)%list
      /\ Forall (fun e => exists ref, In ref [] /\ edit_range e = reference_range ref)
                refEdits
      /\ Forall (fun e => exists literal,
                     In literal [ {| text := "./old"; getStart := 14; node_end := 21 |} ]
                     /\ edit_range e
                        = createTextRange (getStart literal + 1) (node_end literal - 1))
                importEdits)
  /\ substring 15 5 "import x from './old';" = "./old".
Proof.
  destruct string_edits_lie_between_the_quotes as (Himports & _ & Hquotes).
  split.
  - apply (Himports
             {| fileName := "/p/a.ts"; referencedFiles := [];
                imports := [ {| text := "./old"; getStart := 14; node_end := 21 |} ] |}
             (fun _ => Returned None) (fun _ => Returned (Some "./new")) []).
    reflexivity.
  - apply (Hquotes "import x from " "./old" ";" "'"%char
             {| text := "./old"; getStart := 14; node_end := 21 |});
      reflexivity.
Defined.

Lemma flat_map_flat_map {A B C} (f : B -> list C) (g : A -> list B) (xs : list A) :
  flat_map f (flat_map g xs) = flat_map (fun x => flat_map f (g x)) xs.
Proof.
  induction xs as [|x xs IH]; simpl; [reflexivity|].
  now rewrite flat_map_app, IH.
Qed.

Lemma firstDefinedE_first {T U} (array pre post : list T) (x : T)
  (callback : T -> outcome (option U)) (r : U) :
  array = (pre ++ x :: post)%list ->
  (forall y, In y pre -> callback y = Returned None) ->
  callback x = Returned (Some r) ->
  firstDefinedE array callback = Returned (Some r).
Proof.
  intros -> Hpre Hx. induction pre as [|p pre IH]; simpl.
  - now rewrite Hx.
  - rewrite (Hpre p) by now left. apply IH. intros y Hy. apply Hpre. now right.
Qed.


Lemma firstDefinedE_none {T U} (array : list T)
  (callback : T -> outcome (option U)) :
  (forall y, In y array -> callback y = Returned None) ->
  firstDefinedE array callback = Returned None.
Proof.
  induction array as [|x array IH]; intros H; simpl; [reflexivity|].
  rewrite (H x) by now left. apply IH. intros y Hy. apply H. now right.
Qed.

Lemma firstDefinedE_singleton {T U} (x : T) (callback : T -> outcome (option U)) :
  firstDefinedE [x] callback = callback x.
Proof. simpl. now destruct (callback x) as [[r|]|]. Qed.

Lemma firstDefinedE_fails {T U} (array pre post : list T) (x : T)
  (callback : T -> outcome (option U)) :
  array = (pre ++ x :: post)%list ->
  (forall y, In y pre -> callback y = Returned None) ->
  callback x = AssertionFailure ->
  firstDefinedE array callback = AssertionFailure.
Proof.
  intros -> Hpre Hx. induction pre as [|p pre IH]; simpl.
  - now rewrite Hx.
  - rewrite (Hpre p) by now left. apply IH. intros y Hy. apply Hpre. now right.
Qed.

Section InternalUpdater.

Context {paths : PathArithmetic}.

Lemma importIsInternalToDirectory_true (dir sourceFilePath importText : string) :
  importIsInternalToDirectory dir sourceFilePath importText = true <->
  exists rest,
    combineNormal (getDirectoryPath sourceFilePath) importText = dir ++ "/" ++ rest.
Proof. apply truthy_removeDirectoryPrefixFromPath. Qed.

Lemma importIsInternalToDirectory_false (dir sourceFilePath importText : string) :
  importIsInternalToDirectory dir sourceFilePath importText = false <->
  ~ exists rest,
      combineNormal (getDirectoryPath sourceFilePath) importText = dir ++ "/" ++ rest.
Proof.
  rewrite <- importIsInternalToDirectory_true.
  destruct (importIsInternalToDirectory dir sourceFilePath importText);
    split; congruence.
Qed.

End InternalUpdater.

(** ** The loops over references, imports and entries *)

Section Loops.

Import ChangeTracker.

Lemma recordUpdate_returns (file : string) (range : TextRange)
  (updated : outcome (option string)) (changes : t) :
  updated <> AssertionFailure ->
  recordUpdate file range updated changes
  = Returned (tt, (changes ++ updateEdit file range updated)%list).
Proof.
  intros H. rewrite recordUpdate_run.
  destruct updated as [[u|]|]; simpl; [reflexivity| |congruence].
  now rewrite app_nil_r.
Qed.

Lemma forOf_fails_iff {T} (xs : list T) (body : T -> M unit) (F : T -> Prop) :
  (forall x c, In x xs -> body x c = AssertionFailure <-> F x) ->
  forall changes,
    forOf xs body changes = AssertionFailure <-> exists x, In x xs /\ F x.
Proof.
  induction xs as [|x xs IH]; intros H changes; simpl.
  - split; [discriminate|]. intros (x & [] & _).
  - unfold bind. destruct (body x changes) as [[u c]|] eqn:Hx.
    + rewrite IH by (intros y c' Hy; apply H; now right). split.
      * intros (y & Hy & Fy). exists y. split; [now right|exact Fy].
      * intros (y & [<-|Hy] & Fy); [|now exists y].
        apply (H x changes (or_introl eq_refl)) in Fy. congruence.
    + split; [|reflexivity]. intros _. exists x. split; [now left|].
      now apply (H x changes (or_introl eq_refl)).
Qed.

Lemma forOf_bounded {T} (xs : list T) (body : T -> M unit) (places : T -> nat) :
  (forall x c u c', In x xs -> body x c = Returned (u, c') ->
     exists es, c' = (c ++ es)%list /\ List.length es <= places x) ->
  forall changes u changes',
    forOf xs body changes = Returned (u, changes') ->
    exists es, changes' = (changes ++ es)%list
               /\ List.length es <= list_sum (map places xs).
Proof.
  induction xs as [|x xs IH]; intros H changes u changes' Hrun; simpl in Hrun.
  - unfold ret in Hrun. injection Hrun as _ <-.
    exists []. rewrite app_nil_r. split; [reflexivity|simpl; lia].
  - unfold bind in Hrun.
    destruct (body x changes) as [[u1 c1]|] eqn:Hx; [|discriminate].
    destruct (H x changes u1 c1 (or_introl eq_refl) Hx) as (es1 & -> & L1).
    destruct (IH (fun y c v c' Hy => H y c v c' (or_intror Hy)) _ _ _ Hrun)
      as (es2 & -> & L2).
    exists (es1 ++ es2)%list. split; [now rewrite app_assoc|].
    rewrite length_app. simpl. lia.
Qed.

Lemma recordUpdate_bounded (file : string) (range : TextRange)
  (updated : outcome (option string)) (changes : t) (u : unit) (changes' : t) :
  recordUpdate file range updated changes = Returned (u, changes') ->
  exists es, changes' = (changes ++ es)%list /\ List.length es <= 1.
Proof.
  rewrite recordUpdate_run. destruct updated as [[r|]|]; intros H;
    try discriminate; injection H as _ <-.
  - eexists. split; [reflexivity|]. simpl. lia.
  - exists []. rewrite app_nil_r. split; [reflexivity|]. simpl. lia.
Qed.

(** The worker when no callback fails. *)
Lemma updateImportsWorker_returns (sourceFile : SourceFile)
  (updateRef updateImport : string -> outcome (option string)) (changes : t) :
  (forall ref, In ref (referencedFiles sourceFile) ->
               updateRef (reference_fileName ref) <> AssertionFailure) ->
  (forall literal, In literal (imports sourceFile) ->
                   updateImport (text literal) <> AssertionFailure) ->
  updateImportsWorker sourceFile updateRef updateImport changes
  = Returned (tt, (changes ++ workerEdits sourceFile updateRef updateImport)%list).
Proof.
  intros Hrefs Himports. unfold updateImportsWorker, bind, workerEdits.
  rewrite (forOf_emits _ _
             (fun ref => updateEdit (fileName sourceFile) (reference_range ref)
                           (updateRef (reference_fileName ref)))).
  - rewrite (forOf_emits _ _
               (fun literal => updateEdit (fileName sourceFile)
                                 (createStringRange literal)
                                 (updateImport (text literal)))).
    + now rewrite app_assoc.
    + intros literal c Hin.
      apply (recordUpdate_returns (fileName sourceFile)
               (createStringRange literal)). now apply Himports.
  - intros ref c Hin.
    apply (recordUpdate_returns (fileName sourceFile) (reference_range ref)).
    now apply Hrefs.
Qed.

Lemma updateImportsWorker_bounded (sourceFile : SourceFile)
  (updateRef updateImport : string -> outcome (option string))
  (changes : t) (u : unit) (changes' : t) :
  updateImportsWorker sourceFile updateRef updateImport changes
  = Returned (u, changes') ->
  exists es,
    changes' = (changes ++ es)%list
    /\ List.length es
       <= List.length (referencedFiles sourceFile)
          + List.length (imports sourceFile)
    /\ Forall (fun e => edit_fileName e = fileName sourceFile) es.
Proof.
  intros Hrun.
  assert (forall A (xs : list A), list_sum (map (fun _ => 1) xs) = List.length xs)
    as Hones by (intros A xs; induction xs; simpl; auto).
  pose proof Hrun as Hrun'.
  unfold updateImportsWorker, bind in Hrun, Hrun'.
  match type of Hrun with
  | match ?refs changes with _ => _ end = _ =>
      destruct (refs changes) as [[u1 c1]|] eqn:Hrefs; [|discriminate]
  end.
  pose proof Hrefs as Hrefs'.
  apply (forOf_bounded _ _ (fun _ => 1)) in Hrefs as (es1 & -> & L1).
  2: { intros ref c v c' _ Hstep.
       exact (recordUpdate_bounded _ _ _ _ _ _ Hstep). }
  apply (forOf_bounded _ _ (fun _ => 1)) in Hrun as (es2 & -> & L2).
  2: { intros literal c v c' _ Hstep.
       exact (recordUpdate_bounded _ _ _ _ _ _ Hstep). }
  rewrite Hones in L1, L2.
  apply (forOf_appends (fun e => edit_fileName e = fileName sourceFile))
    in Hrefs' as (es1' & E1 & P1).
  2: { intros ref c v c' _ Hstep.
       apply (recordUpdate_appends (fileName sourceFile) (reference_range ref))
         in Hstep as (es & -> & Hes).
       exists es. split; [reflexivity|].
       eapply Forall_impl; [|exact Hes]. now intros e [He _]. }
  apply app_inv_head in E1. subst es1'.
  apply (forOf_appends (fun e => edit_fileName e = fileName sourceFile))
    in Hrun' as (es2' & E2 & P2).
  2: { intros literal c v c' _ Hstep.
       apply (recordUpdate_appends (fileName sourceFile)
                (createStringRange literal)) in Hstep as (es & -> & Hes).
       exists es. split; [reflexivity|].
       eapply Forall_impl; [|exact Hes]. now intros e [He _]. }
  apply app_inv_head in E2. subst es2'.
  exists (es1 ++ es2)%list. split; [now rewrite app_assoc|]. split.
  - rewrite length_app. lia.
  - apply Forall_app. now split.
Qed.

(** The configuration scan under a path updater that does not fail on the
    entries. *)
Lemma updateTsconfigFiles_returns (program : Program) (config : TsConfigSourceFile)
  (pathUpdater : ExternalPathUpdater) (changes : t) :
  configFile program = Some config ->
  (forall entry, In entry (configStringEntries config) ->
                 pathUpdater (text entry) (text entry) false <> AssertionFailure) ->
  updateTsconfigFiles program pathUpdater changes
  = Returned (tt, (changes ++ configEditsWith config pathUpdater)%list).
Proof.
  intros Hconfig Hentries. unfold updateTsconfigFiles. rewrite Hconfig.
  unfold configEditsWith. revert Hentries. unfold configStringEntries.
  intros Hentries. rewrite flat_map_flat_map.
  apply forOf_emits. intros property c Hin.
  destruct (initializer property) as [| elements |] eqn:Hinit;
    try (unfold ret; simpl; now rewrite app_nil_r).
  rewrite flat_map_flat_map. apply forOf_emits. intros element c0 Hel.
  destruct element as [literal | |];
    try (unfold ret; simpl; now rewrite app_nil_r).
  simpl flat_map. rewrite app_nil_r.
  apply (recordUpdate_returns (config_fileName config) (createStringRange literal)).
  apply Hentries. apply in_flat_map. exists property. split; [exact Hin|].
  rewrite Hinit. apply in_flat_map. exists (StringLiteral literal).
  split; [exact Hel|now left].
Qed.

Lemma updateTsconfigFiles_bounded (program : Program)
  (pathUpdater : ExternalPathUpdater) (changes : t) (u : unit) (changes' : t) :
  updateTsconfigFiles program pathUpdater changes = Returned (u, changes') ->
  exists es,
    changes' = (changes ++ es)%list
    /\ List.length es
       <= match configFile program with
          | Some config => List.length (configStringEntries config)
          | None => 0
          end
    /\ Forall (fun e => exists config, configFile program = Some config
                                       /\ edit_fileName e = config_fileName config)
              es.
Proof.
  unfold updateTsconfigFiles.
  destruct (configFile program) as [config|] eqn:Hconfig.
  2: { intros H. injection H as _ <-. exists []. rewrite app_nil_r.
       repeat split; [simpl; lia|constructor]. }
  intros Hrun. pose proof Hrun as Hrun'.
  apply (forOf_bounded _ _
           (fun property =>
              List.length
                (match initializer property with
                 | ArrayLiteralExpression elements =>
                     flat_map (fun element =>
                                 match element with
                                 | StringLiteral literal => [literal]
                                 | _ => []
                                 end) elements
                 | _ => []
                 end)))
    in Hrun as (es & -> & L).
  2: { intros property c v c' _ Hstep.
       destruct (initializer property) as [| elements |];
         try (injection Hstep as _ <-; exists []; rewrite app_nil_r;
              split; [reflexivity|simpl; lia]).
       rewrite length_flat_map.
       apply (forOf_bounded _ _
                (fun element =>
                   List.length match element with
                               | StringLiteral literal => [literal]
                               | _ => []
                               end)) in Hstep; [exact Hstep|].
       intros element c0 v0 c0' _ Hstep0.
       destruct element as [literal | |];
         try (injection Hstep0 as _ <-; exists []; rewrite app_nil_r;
              split; [reflexivity|simpl; lia]).
       exact (recordUpdate_bounded _ _ _ _ _ _ Hstep0). }
  apply (forOf_appends (fun e => edit_fileName e = config_fileName config))
    in Hrun' as (es' & E & P).
  2: { intros property c v c' _ Hstep.
       destruct (initializer property) as [| elements |];
         try (injection Hstep as _ <-; exists []; now rewrite app_nil_r).
       eapply forOf_appends in Hstep; [exact Hstep|].
       intros element c0 v0 c0' _ Hstep0.
       destruct element as [literal | |];
         try (injection Hstep0 as _ <-; exists []; now rewrite app_nil_r).
       apply (recordUpdate_appends (config_fileName config)
                (createStringRange literal)) in Hstep0 as (es0 & -> & Hes).
       exists es0. split; [reflexivity|].
       eapply Forall_impl; [|exact Hes]. now intros e [He _]. }
  apply app_inv_head in E. subst es'.
  exists es. split; [reflexivity|]. split.
  - unfold configStringEntries. now rewrite length_flat_map.
  - eapply Forall_impl; [|exact P]. intros e He. now exists config.
Qed.

End Loops.


(** ** The orchestration, read as lists of edits *)

Section Orchestration.

Context {paths : PathArithmetic}.

Import ChangeTracker.

Lemma flat_map_all_nil {A B} (f : A -> list B) (xs : list A) :
  (forall x, In x xs -> f x = []) -> flat_map f xs = [].
Proof.
  induction xs as [|x xs IH]; intros H; simpl; [reflexivity|].
  rewrite (H x) by now left. apply IH. intros y Hy. apply H. now right.
Qed.

Lemma flat_map_ext_In {A B} (f g : A -> list B) (xs : list A) :
  (forall x, In x xs -> f x = g x) -> flat_map f xs = flat_map g xs.
Proof.
  induction xs as [|x xs IH]; intros H; simpl; [reflexivity|].
  rewrite (H x) by now left. f_equal. apply IH. intros y Hy. apply H. now right.
Qed.

Lemma forOf_returns_emits {T} (xs : list T) (body : T -> M unit)
  (emit : T -> list TextEdit) :
  (forall x c u c', In x xs -> body x c = Returned (u, c') ->
                    c' = (c ++ emit x)%list) ->
  forall changes u changes',
    forOf xs body changes = Returned (u, changes') ->
    changes' = (changes ++ flat_map emit xs)%list.
Proof.
  induction xs as [|x xs IH]; intros H changes u changes' Hrun; simpl in Hrun.
  - unfold ret in Hrun. injection Hrun as _ <-. simpl. now rewrite app_nil_r.
  - unfold bind in Hrun.
    destruct (body x changes) as [[u1 c1]|] eqn:Hx; [|discriminate].
    rewrite (H x changes u1 c1 (or_introl eq_refl) Hx) in Hrun.
    rewrite (IH (fun y c v c' Hy => H y c v c' (or_intror Hy)) _ _ _ Hrun).
    simpl. now rewrite app_assoc.
Qed.

Lemma recordUpdate_exact (file : string) (range : TextRange)
  (updated : outcome (option string)) (changes : t) (u : unit) (changes' : t) :
  recordUpdate file range updated changes = Returned (u, changes') ->
  changes' = (changes ++ updateEdit file range updated)%list.
Proof.
  rewrite recordUpdate_run. destruct updated as [[r|]|]; intros H;
    try discriminate; injection H as _ <-; simpl; [reflexivity|].
  now rewrite app_nil_r.
Qed.

Lemma recordUpdate_failure (file : string) (range : TextRange)
  (updated : outcome (option string)) (changes : t) :
  recordUpdate file range updated changes = AssertionFailure
  <-> updated = AssertionFailure.
Proof.
  rewrite recordUpdate_run. destruct updated as [[u|]|]; split; congruence.
Qed.

Lemma updateImportsWorker_failure (sourceFile : SourceFile)
  (updateRef updateImport : string -> outcome (option string)) (changes : t) :
  updateImportsWorker sourceFile updateRef updateImport changes
  = AssertionFailure <->
  (exists ref, In ref (referencedFiles sourceFile)
               /\ updateRef (reference_fileName ref) = AssertionFailure)
  \/ (exists literal, In literal (imports sourceFile)
                      /\ updateImport (text literal) = AssertionFailure).
Proof.
  pose proof (forOf_fails_iff (referencedFiles sourceFile)
                (fun ref => recordUpdate (fileName sourceFile) (reference_range ref)
                              (updateRef (reference_fileName ref)))
                (fun ref => updateRef (reference_fileName ref) = AssertionFailure)
                (fun ref c _ => recordUpdate_failure _ _ _ c)) as Hrefs.
  pose proof (forOf_fails_iff (imports sourceFile)
                (fun literal => recordUpdate (fileName sourceFile)
                                  (createStringRange literal)
                                  (updateImport (text literal)))
                (fun literal => updateImport (text literal) = AssertionFailure)
                (fun literal c _ => recordUpdate_failure _ _ _ c)) as Himports.
  change (updateImportsWorker sourceFile updateRef updateImport changes)
    with (bind
            (forOf (referencedFiles sourceFile)
               (fun ref => recordUpdate (fileName sourceFile) (reference_range ref)
                             (updateRef (reference_fileName ref))))
            (fun _ =>
               forOf (imports sourceFile)
                 (fun literal => recordUpdate (fileName sourceFile)
                                   (createStringRange literal)
                                   (updateImport (text literal))))
            changes).
  unfold bind at 1.
  destruct (forOf (referencedFiles sourceFile) _ changes) as [[u1 c1]|] eqn:Hloop.
  - rewrite Himports. split; [now right|]. intros [Hfail|H]; [|exact H].
    apply Hrefs with (changes := changes) in Hfail. congruence.
  - split; [|reflexivity]. intros _. left. now apply (Hrefs changes).
Qed.

Lemma updateImportsWorker_exact (sourceFile : SourceFile)
  (updateRef updateImport : string -> outcome (option string))
  (changes : t) (u : unit) (changes' : t) :
  updateImportsWorker sourceFile updateRef updateImport changes
  = Returned (u, changes') ->
  changes' = (changes ++ workerEdits sourceFile updateRef updateImport)%list.
Proof.
  intros Hrun.
  assert (updateImportsWorker sourceFile updateRef updateImport changes
          <> AssertionFailure) as Hok by congruence.
  rewrite updateImportsWorker_failure in Hok.
  rewrite updateImportsWorker_returns in Hrun.
  - now injection Hrun as <-.
  - intros ref Hin Hfail. apply Hok. left. now exists ref.
  - intros literal Hin Hfail. apply Hok. right. now exists literal.
Qed.

Section Files.

Variables (program : Program) (externalPathUpdater : ExternalPathUpdater).
Variables (internalPathUpdater : InternalPathUpdater).
Variables (oldPath newPath : string) (host : LanguageServiceHost).

Lemma updateImports_exact (changes : t) (u : unit) (changes' : t) :
  updateImports program externalPathUpdater internalPathUpdater
    oldPath newPath host changes
  = Returned (u, changes') ->
  changes'
  = (changes
     ++ flat_map (sourceFileEdits program externalPathUpdater internalPathUpdater
                    oldPath newPath host)
                 (getSourceFiles program))%list.
Proof.
  unfold updateImports. apply forOf_returns_emits.
  intros sourceFile c v c' _ Hstep. unfold sourceFileEdits.
  destruct (isMovedFile oldPath newPath sourceFile);
    exact (updateImportsWorker_exact _ _ _ _ _ _ Hstep).
Qed.

Lemma updateImports_failure (changes : t) :
  updateImports program externalPathUpdater internalPathUpdater
    oldPath newPath host changes
  = AssertionFailure <->
  exists sourceFile,
    In sourceFile (getSourceFiles program)
    /\ isMovedFile oldPath newPath sourceFile = false
    /\ failsOnFile program externalPathUpdater host sourceFile.
Proof.
  unfold updateImports.
  rewrite (forOf_fails_iff _ _
             (fun sourceFile =>
                isMovedFile oldPath newPath sourceFile = false
                /\ failsOnFile program externalPathUpdater host sourceFile)).
  - reflexivity.
  - intros sourceFile c _.
    destruct (isMovedFile oldPath newPath sourceFile).
    + rewrite updateImportsWorker_failure. split.
      * intros [(ref & _ & H)|(literal & _ & H)]; discriminate H.
      * intros [H _]. discriminate H.
    + rewrite updateImportsWorker_failure. unfold failsOnFile.
      split; [now split|now intros [_ H]].
Qed.

End Files.

(** *** The whole computation, once the two updaters are built *)

Section BuiltUpdaters.

Variables (program : Program) (oldPath newPath : string).
Variables (host : LanguageServiceHost).
Variables (externalPathUpdater : ExternalPathUpdater).
Variables (internalPathUpdater : InternalPathUpdater).

Hypothesis Hexternal :
  getExternalPathUpdater oldPath newPath host = Returned externalPathUpdater.

Hypothesis Hinternal :
  getInternalPathUpdater oldPath newPath = Returned internalPathUpdater.

Lemma getEditsForFileRename_built :
  getEditsForFileRename program oldPath newPath host
  = with_ (updateTsconfigFiles program externalPathUpdater ;;;
           updateImports program externalPathUpdater internalPathUpdater
             oldPath newPath host).
Proof.
  unfold getEditsForFileRename. now rewrite Hexternal, Hinternal.
Qed.

Lemma updateTsconfigFiles_built (changes : t) :
  updateTsconfigFiles program externalPathUpdater changes
  = Returned (tt, (changes ++ configScanEdits program externalPathUpdater)%list).
Proof.
  destruct (getExternalPathUpdater_rel _ _ _ _ Hexternal) as [rel Hrel].
  unfold configScanEdits.
  destruct (configFile program) as [config|] eqn:Hconfig.
  - apply updateTsconfigFiles_returns; [exact Hconfig|].
    intros entry _.
    exact (getExternalPathUpdater_entry_returns _ _ _ _ _ Hrel Hexternal (text entry)).
  - unfold updateTsconfigFiles. rewrite Hconfig.
    unfold ret. now rewrite app_nil_r.
Qed.

Lemma getEditsForFileRename_exact (edits : list TextEdit) :
  getEditsForFileRename program oldPath newPath host = Returned edits ->
  edits = projectEdits program externalPathUpdater internalPathUpdater
            oldPath newPath host.
Proof.
  rewrite getEditsForFileRename_built. unfold with_, bind, projectEdits.
  rewrite updateTsconfigFiles_built.
  destruct (updateImports program _ _ oldPath newPath host _) as [[u c]|] eqn:Hrun;
    [|discriminate].
  intros H. injection H as <-. now rewrite (updateImports_exact _ _ _ _ _ _ _ _ _ Hrun).
Qed.

Lemma getEditsForFileRename_failure :
  getEditsForFileRename program oldPath newPath host = AssertionFailure <->
  exists sourceFile,
    In sourceFile (getSourceFiles program)
    /\ isMovedFile oldPath newPath sourceFile = false
    /\ failsOnFile program externalPathUpdater host sourceFile.
Proof.
  rewrite getEditsForFileRename_built. unfold with_, bind.
  rewrite updateTsconfigFiles_built.
  rewrite <- (updateImports_failure program externalPathUpdater
                internalPathUpdater oldPath newPath host
                ([] ++ configScanEdits program externalPathUpdater)%list).
  destruct (updateImports program _ _ oldPath newPath host _) as [[u c]|];
    split; congruence.
Qed.

Lemma getEditsForFileRename_returns :
  (forall sourceFile,
      In sourceFile (getSourceFiles program) ->
      isMovedFile oldPath newPath sourceFile = false ->
      ~ failsOnFile program externalPathUpdater host sourceFile) ->
  getEditsForFileRename program oldPath newPath host
  = Returned (projectEdits program externalPathUpdater internalPathUpdater
                oldPath newPath host).
Proof.
  intros Hok.
  destruct (getEditsForFileRename program oldPath newPath host) as [edits|] eqn:Hrun.
  - now rewrite (getEditsForFileRename_exact _ Hrun).
  - apply getEditsForFileRename_failure in Hrun
      as (sourceFile & Hin & Hmoved & Hfails).
    now elim (Hok sourceFile Hin Hmoved).
Qed.

End BuiltUpdaters.

Lemma getEditsForFileRename_not_built (program : Program)
  (oldPath newPath : string) (host : LanguageServiceHost) :
  getExternalPathUpdater oldPath newPath host = AssertionFailure
  \/ getInternalPathUpdater oldPath newPath = AssertionFailure ->
  getEditsForFileRename program oldPath newPath host = AssertionFailure.
Proof.
  unfold getEditsForFileRename. intros [->| ->]; [reflexivity|].
  now destruct (getExternalPathUpdater oldPath newPath host).
Qed.

End Orchestration.

(** ** The configuration file *)

Lemma configEditsWith_entries {paths : PathArithmetic}
  (config : TsConfigSourceFile) (oldPath newPath : string)
  (host : LanguageServiceHost) (updater : ExternalPathUpdater) :
  getExternalPathUpdater oldPath newPath host = Returned updater ->
  pathIsRelative oldPath = false ->
  configEditsWith config updater = configFileEdits config oldPath newPath.
Proof.
  intros Hbuilt Hold.
  destruct (getExternalPathUpdater_rel _ _ _ _ Hbuilt) as [rel Hrel].
  unfold configEditsWith, configFileEdits. apply flat_map_ext. intros entry.
  rewrite (getExternalPathUpdater_entry _ _ _ _ _ Hrel Hbuilt) by exact Hold.
  unfold entryEdit, updateEdit.
  now destruct (rewrittenEntry oldPath newPath (text entry)).
Qed.

Lemma updateTsconfigFiles_run {paths : PathArithmetic} (program : Program)
  (config : TsConfigSourceFile) (oldPath newPath : string)
  (host : LanguageServiceHost) (updater : ExternalPathUpdater)
  (changes : ChangeTracker.t) :
  getExternalPathUpdater oldPath newPath host = Returned updater ->
  pathIsRelative oldPath = false ->
  configFile program = Some config ->
  updateTsconfigFiles program updater changes
  = Returned (tt, (changes ++ configFileEdits config oldPath newPath)%list).
Proof.
  intros Hbuilt Hold Hconfig.
  destruct (getExternalPathUpdater_rel _ _ _ _ Hbuilt) as [rel Hrel].
  rewrite <- (configEditsWith_entries config _ _ _ _ Hbuilt Hold).
  apply updateTsconfigFiles_returns; [exact Hconfig|].
  intros entry _.
  exact (getExternalPathUpdater_entry_returns _ _ _ _ _ Hrel Hbuilt (text entry)).
Qed.

(** C8 (amended): with an old path that is not a relative path, the
    configuration scan fails only when the external updater cannot be built
    (the path library fails its assertion on the two paths); otherwise it
    records, in order, one edit for each string entry of the "files" arrays
    that equals the old path (replaced by the new path) or lies strictly
    inside the old path (the old path replaced by the new one, the
    remainder kept), through the external updater with [isImport = false];
    other string entries, elements that are not string literals and
    initializers that are not arrays are skipped. *)
Theorem updateTsconfigFiles_rewrites_entries_at_or_inside_old_path :
  forall (paths : PathArithmetic) (program : Program) (config : TsConfigSourceFile)
         (oldPath newPath : string) (host : LanguageServiceHost)
         (changes : ChangeTracker.t),
    pathIsRelative oldPath = false ->
    configFile program = Some config ->
    outcome_bind (getExternalPathUpdater oldPath newPath host)
      (fun updater => updateTsconfigFiles program updater changes)
    = outcome_bind
        (getRelativePathFromFile oldPath newPath
           (createGetCanonicalFileName (hostUsesCaseSensitiveFileNames host)))
        (fun _ =>
           Returned (tt, (changes ++ configFileEdits config oldPath newPath)%list))
    /\ (forall entry replacement,
          rewrittenEntry oldPath newPath entry = Some replacement <->
          (entry = oldPath /\ replacement = newPath)
          \/ (entry <> oldPath
              /\ exists rest, entry = oldPath ++ "/" ++ rest
                              /\ replacement = newPath ++ "/" ++ rest)).
Proof.
  intros paths program config oldPath newPath host changes Hold Hconfig. split.
  - destruct (getExternalPathUpdater oldPath newPath host) as [updater|] eqn:Hbuilt.
    + destruct (getExternalPathUpdater_rel _ _ _ _ Hbuilt) as [rel ->].
      cbn [outcome_bind]. now apply (updateTsconfigFiles_run program config _ _ host).
    + apply getExternalPathUpdater_not_built in Hbuilt. now rewrite Hbuilt.
  - intros entry replacement. apply rewrittenEntry_Some.
Qed.

Lemma updateTsconfigFiles_rewrites_entries_at_or_inside_old_path_witness :
  outcome_bind
    (getExternalPathUpdater (paths := posixPaths) "/p/dir" "/p/dir2" exampleHost)
    (fun updater => updateTsconfigFiles exampleConfigProgram updater [])
  = Returned (tt, [ {| edit_fileName := "/p/tsconfig.json";
                       edit_range := createTextRange 31 42;
                       newText := "/p/dir2/a.ts" |};
                    {| edit_fileName := "/p/tsconfig.json";
                       edit_range := createTextRange 51 57;
                       newText := "/p/dir2" |} ]).
Proof.
  rewrite (proj1 (updateTsconfigFiles_rewrites_entries_at_or_inside_old_path
                    posixPaths exampleConfigProgram exampleConfig
                    "/p/dir" "/p/dir2" exampleHost [] eq_refl eq_refl)).
  evaluates.
Defined.

(** C8 as stated fails: the entry "/p/dir/a.ts" does not equal the old path
    "/p/dir", and it is rewritten all the same, to "/p/dir2/a.ts"; as the
    spec words it only the entry "/p/dir" would be. *)
Lemma config_entry_inside_old_directory_is_rewritten :
  getEditsForFileRename (paths := posixPaths) exampleConfigProgram
    "/p/dir" "/p/dir2" exampleHost
  = Returned [ {| edit_fileName := "/p/tsconfig.json";
                  edit_range := createTextRange 31 42;
                  newText := "/p/dir2/a.ts" |};
               {| edit_fileName := "/p/tsconfig.json";
                  edit_range := createTextRange 51 57;
                  newText := "/p/dir2" |} ]
  /\ Spec.configFileEdits exampleConfig "/p/dir" "/p/dir2"
     = [ {| edit_fileName := "/p/tsconfig.json";
            edit_range := createTextRange 51 57;
            newText := "/p/dir2" |} ]
  /\ getEditsForFileRename (paths := posixPaths) exampleConfigProgram
       "/p/dir" "/p/dir2" exampleHost
     <> Returned (Spec.configFileEdits exampleConfig "/p/dir" "/p/dir2").
Proof. split; [evaluates|split; [evaluates|differs]]. Qed.

(** ** The internal path updater, once built *)

Lemma getInternalPathUpdater_builds {paths : PathArithmetic}
  (oldPath newPath deltaNewToOld deltaOldToNew : string) :
  getRelative newPath oldPath = Returned deltaNewToOld ->
  getRelative oldPath newPath = Returned deltaOldToNew ->
  exists updater, getInternalPathUpdater oldPath newPath = Returned updater.
Proof.
  intros HnewToOld HoldToNew. unfold getInternalPathUpdater.
  rewrite HnewToOld. cbn [outcome_bind].
  destruct (String.eqb deltaNewToOld "."); [eauto|].
  rewrite HoldToNew. cbn [outcome_bind]. eauto.
Qed.

Section BuiltInternalUpdater.

Context {paths : PathArithmetic}.

Variables (oldPath newPath deltaNewToOld : string).
Variable updater : InternalPathUpdater.

Hypothesis HnewToOld : getRelative newPath oldPath = Returned deltaNewToOld.

Hypothesis Hbuilt : getInternalPathUpdater oldPath newPath = Returned updater.

(** The shortcut of line 70. *)
Lemma getInternalPathUpdater_shortcut (sourceFile : SourceFile)
  (importText : string) :
  deltaNewToOld = "." -> updater sourceFile importText = None.
Proof.
  intros Hdelta. pose proof Hbuilt as H. unfold getInternalPathUpdater in H.
  rewrite HnewToOld in H. cbn [outcome_bind] in H. rewrite Hdelta in H.
  cbn in H. injection H as <-. reflexivity.
Qed.

(** The closure of lines 73-83 over the two deltas. *)
Lemma getInternalPathUpdater_closure (sourceFile : SourceFile)
  (importText : string) :
  deltaNewToOld <> "." ->
  exists deltaOldToNew,
    getRelative oldPath newPath = Returned deltaOldToNew
    /\ updater sourceFile importText
       = if negb (pathIsRelative importText)
            || importIsInternalToDirectory oldPath (fileName sourceFile) importText
            || importIsInternalToDirectory newPath (fileName sourceFile) importText
         then None
         else match tryRemovePrefix importText (deltaOldToNew ++ "/") with
              | Some s => Some (ensurePathIsNonModuleName s)
              | None => Some (combineNormal deltaNewToOld importText)
              end.
Proof.
  intros Hdelta. apply String.eqb_neq in Hdelta.
  pose proof Hbuilt as H. unfold getInternalPathUpdater in H.
  rewrite HnewToOld in H. cbn [outcome_bind] in H. rewrite Hdelta in H.
  destruct (getRelative oldPath newPath) as [deltaOldToNew|]; [|discriminate].
  cbn [outcome_bind] in H. injection H as <-.
  exists deltaOldToNew. split; reflexivity.
Qed.

End BuiltInternalUpdater.

(** ** Renaming a path to itself *)

Lemma outsidePath_atOrInsidePath (path candidate : string) :
  outsidePath path candidate <-> atOrInsidePath path candidate = false.
Proof.
  unfold outsidePath, atOrInsidePath. rewrite orb_false_iff.
  rewrite String.eqb_neq. rewrite <- removeDirectoryPrefixFromPath_None.
  destruct (removeDirectoryPrefixFromPath path candidate) as [suffix|] eqn:E.
  - pose proof (proj2 (truthy_removeDirectoryPrefixFromPath path candidate)) as H.
    rewrite E in H. apply removeDirectoryPrefixFromPath_Some in E as [Hp Hs].
    apply startsWith_separator in Hs as [rest ->].
    rewrite H by now exists rest.
    split; intros [_ Habs]; discriminate Habs.
  - simpl. tauto.
Qed.

Lemma rewrittenEntry_same_path_atOrInsidePath (path entry : string) :
  rewrittenEntry path path entry
  = if atOrInsidePath path entry then Some entry else None.
Proof.
  unfold rewrittenEntry, atOrInsidePath.
  destruct (String.eqb_spec entry path) as [->|Hne]; [reflexivity|].
  cbn [orb].
  destruct (removeDirectoryPrefixFromPath path entry) as [suffix|] eqn:E;
    [|reflexivity].
  pose proof (proj2 (truthy_removeDirectoryPrefixFromPath path entry)) as H.
  rewrite E in H. apply removeDirectoryPrefixFromPath_Some in E as [Hp Hs].
  apply startsWith_separator in Hs as [rest ->].
  rewrite H by now exists rest. now rewrite Hp.
Qed.

Lemma isMovedFile_outside (path : string) (sourceFile : SourceFile) :
  outsidePath path (fileName sourceFile) ->
  isMovedFile path path sourceFile = false.
Proof.
  intros H. apply outsidePath_atOrInsidePath in H.
  unfold isMovedFile. unfold atOrInsidePath in H.
  apply orb_false_iff in H as [-> ->]. reflexivity.
Qed.

Section UnrelatedProject.

Context {paths : PathArithmetic}.

Variables (program : Program) (host : LanguageServiceHost).
Variables (oldPath newPath rel : string) (updater : ExternalPathUpdater).

Hypothesis Hrel :
  getRelativePathFromFile oldPath newPath
    (createGetCanonicalFileName (hostUsesCaseSensitiveFileNames host))
  = Returned rel.

Hypothesis Hbuilt : getExternalPathUpdater oldPath newPath host = Returned updater.

Lemma getExternalPathUpdater_outside (fullPath importText : string)
  (isImport : bool) :
  outsidePath oldPath fullPath ->
  updater fullPath importText isImport = Returned None.
Proof.
  intros H.
  now apply (getExternalPathUpdater_no_change _ _ _ _ _ Hrel Hbuilt).
Qed.

Lemma updateImportOfUnmovedFile_outside (sourceFile : SourceFile)
  (importText : string) :
  (forall resolved candidate,
      cachedResolution program host importText (fileName sourceFile)
      = Some resolved ->
      In candidate (resolutionCandidates resolved) ->
      outsidePath oldPath candidate) ->
  updateImportOfUnmovedFile program updater host sourceFile importText
  = Returned None.
Proof.
  intros H. unfold updateImportOfUnmovedFile. cbv zeta.
  destruct (cachedResolution program host importText (fileName sourceFile))
    as [resolved|] eqn:Hresolved; [|reflexivity].
  apply firstDefinedE_none. intros candidate Hin.
  apply getExternalPathUpdater_outside. exact (H resolved candidate eq_refl Hin).
Qed.

Hypothesis Hunrelated :
  forall sourceFile,
    In sourceFile (getSourceFiles program) ->
    (forall ref,
        In ref (referencedFiles sourceFile) ->
        outsidePath oldPath
          (resolveTripleslashReference (reference_fileName ref)
             (fileName sourceFile)))
    /\ (forall literal resolved candidate,
           In literal (imports sourceFile) ->
           cachedResolution program host (text literal) (fileName sourceFile)
           = Some resolved ->
           In candidate (resolutionCandidates resolved) ->
           outsidePath oldPath candidate).

Lemma unmovedFileEdits_unrelated (sourceFile : SourceFile) :
  In sourceFile (getSourceFiles program) ->
  unmovedFileEdits program updater host sourceFile = [].
Proof.
  intros Hin. destruct (Hunrelated sourceFile Hin) as [Hrefs Himports].
  unfold unmovedFileEdits, workerEdits.
  rewrite !flat_map_all_nil; [reflexivity| |].
  - intros literal Hl.
    rewrite updateImportOfUnmovedFile_outside; [reflexivity|].
    intros resolved candidate. now apply Himports.
  - intros ref Hr. rewrite getExternalPathUpdater_outside; [reflexivity|].
    now apply Hrefs.
Qed.

Lemma failsOnFile_unrelated (sourceFile : SourceFile) :
  In sourceFile (getSourceFiles program) ->
  ~ failsOnFile program updater host sourceFile.
Proof.
  intros Hin. destruct (Hunrelated sourceFile Hin) as [Hrefs Himports].
  intros [(ref & Hr & Hfail)|(literal & Hl & Hfail)].
  - rewrite getExternalPathUpdater_outside in Hfail; [discriminate|].
    now apply Hrefs.
  - rewrite updateImportOfUnmovedFile_outside in Hfail; [discriminate|].
    intros resolved candidate. now apply Himports.
Qed.

Lemma configScanEdits_unrelated :
  (forall config entry,
      configFile program = Some config ->
      In entry (configStringEntries config) ->
      outsidePath oldPath (text entry)) ->
  configScanEdits program updater = [].
Proof.
  intros Hentries. unfold configScanEdits.
  destruct (configFile program) as [config|]; [|reflexivity].
  unfold configEditsWith. apply flat_map_all_nil. intros entry Hin.
  rewrite getExternalPathUpdater_outside; [reflexivity|].
  now apply (Hentries config).
Qed.

End UnrelatedProject.


Lemma outsidePath_evaluated (path candidate : string) :
  atOrInsidePath path candidate = false -> outsidePath path candidate.
Proof. apply outsidePath_atOrInsidePath. Qed.



(** ** Imports of files that are not moved *)

Section ImportOfUnmovedFile.

Context {paths : PathArithmetic}.

Variables (program : Program) (oldPath newPath : string).
Variables (host : LanguageServiceHost).
Variables (externalPathUpdater : ExternalPathUpdater).
Variables (internalPathUpdater : InternalPathUpdater).
Variables (filesBefore filesAfter : list SourceFile) (sourceFile : SourceFile).
Variables (importsBefore importsAfter : list StringLiteralLike).
Variable literal : StringLiteralLike.

Hypothesis Hfiles :
  getSourceFiles program = (filesBefore ++ sourceFile :: filesAfter)%list.

Hypothesis Hunmoved : isMovedFile oldPath newPath sourceFile = false.

Hypothesis Himports :
  imports sourceFile = (importsBefore ++ literal :: importsAfter)%list.

Lemma projectEdits_at_import :
  projectEdits program externalPathUpdater internalPathUpdater
    oldPath newPath host
  = (editsBeforeImport program externalPathUpdater internalPathUpdater
       oldPath newPath host filesBefore sourceFile importsBefore
     ++ importEdit program externalPathUpdater host sourceFile literal
     ++ editsAfterImport program externalPathUpdater internalPathUpdater
          oldPath newPath host sourceFile importsAfter filesAfter)%list.
Proof.
  unfold projectEdits, editsBeforeImport, editsAfterImport.
  rewrite Hfiles, flat_map_app. cbn [flat_map].
  unfold sourceFileEdits at 2. rewrite Hunmoved.
  unfold unmovedFileEdits, workerEdits. rewrite Himports, flat_map_app.
  cbn [flat_map]. unfold referenceEdits, importEdit.
  now rewrite <- !app_assoc.
Qed.

Lemma failsOnFile_at_import :
  updateImportOfUnmovedFile program externalPathUpdater host sourceFile
    (text literal)
  = AssertionFailure ->
  exists file,
    In file (getSourceFiles program)
    /\ isMovedFile oldPath newPath file = false
    /\ failsOnFile program externalPathUpdater host file.
Proof.
  intros Hfail. exists sourceFile. split; [|split; [exact Hunmoved|]].
  - rewrite Hfiles. apply in_or_app. right. now left.
  - right. exists literal. split; [|exact Hfail].
    rewrite Himports. apply in_or_app. right. now left.
Qed.

End ImportOfUnmovedFile.




(** ** The case analysis of the internal path updater *)




(** ** The cases of the external path updater *)




(** C3 (amended): whenever the path library returns the relative path
    [rel] from the old path to the new one, the external updater is built,
    and when the resolved path is the old path itself the replacement is
    rendered in module-specifier form iff the reference is an import, from
    this text: the new path when the original text is not relative; for
    relative text, the relative path [rel] combined onto the text itself
    when the old path ends with an index or package ending (after a
    non-empty stem) and the text has no index-like suffix, and onto the
    directory of the text (one trailing level stripped) in every other
    case.  Renaming "/p/old.ts" to "/p/new.ts" rewrites the import "./old"
    of "/p/a.ts" to "./new". *)
Theorem getExternalPathUpdater_exact_match :
  forall (paths : PathArithmetic) (oldPath newPath : string)
         (host : LanguageServiceHost) (rel : string)
         (importText : string) (isImport : bool),
    getRelativePathFromFile oldPath newPath
      (createGetCanonicalFileName (hostUsesCaseSensitiveFileNames host))
    = Returned rel ->
    exists externalPathUpdater,
      getExternalPathUpdater oldPath newPath host = Returned externalPathUpdater
      /\ let render := fun newImportText : string =>
                         if isImport then pathToImportPath newImportText
                         else newImportText in
         let oldPathIsIndex :=
           exists stem e, In e indexEndings /\ oldPath = stem ++ e /\ stem <> "" in
         let updated := externalPathUpdater oldPath importText isImport in
         (pathIsRelative importText = false ->
          updated = Returned (Some (render newPath)))
         /\ (pathIsRelative importText = true ->
             oldPathIsIndex -> endsWithSomeIndex importText = false ->
             updated = Returned (Some (render (combinePathsSafe importText rel))))
         /\ (pathIsRelative importText = true ->
             ~ oldPathIsIndex \/ endsWithSomeIndex importText = true ->
             updated
             = Returned (Some (render (combinePathsSafe
                                         (getDirectoryPath importText) rel))))
         /\ getEditsForFileRename (paths := posixPaths) scenarioA
              "/p/old.ts" "/p/new.ts" exampleHost
            = Returned [ {| edit_fileName := "/p/a.ts";
                            edit_range := createTextRange 15 20;
                            newText := "./new" |} ].
Proof.
  intros paths oldPath newPath host rel importText isImport Hrel.
  destruct (getExternalPathUpdater_builds _ _ _ _ Hrel) as [updater Hbuilt].
  exists updater. split; [exact Hbuilt|].
  intros render oldPathIsIndex updated. subst updated.
  rewrite (getExternalPathUpdater_exact _ _ _ _ _ Hrel Hbuilt). cbv zeta.
  split; [|split; [|split]].
  - intros ->. reflexivity.
  - intros -> Hindex ->. apply truthy_tryRemoveIndexOrPackage in Hindex.
    now rewrite Hindex.
  - intros -> Hother.
    destruct (truthy (tryRemoveIndexOrPackage oldPath)) eqn:Htruthy;
      [|reflexivity].
    destruct Hother as [Hnot| ->]; [|reflexivity].
    apply truthy_tryRemoveIndexOrPackage in Htruthy. contradiction.
  - evaluates.
Qed.

Lemma getExternalPathUpdater_exact_match_witness :
  outcome_bind
    (getExternalPathUpdater (paths := posixPaths) "/p/old.ts" "/p/new.ts"
       exampleHost)
    (fun updater => updater "/p/old.ts" "lib/old" true)
  = Returned (Some "/p/new")
  /\ outcome_bind
       (getExternalPathUpdater (paths := posixPaths) "/p/index.ts" "/p/new.ts"
          exampleHost)
       (fun updater => updater "/p/index.ts" "./p" true)
     = Returned (Some "./p/new")
  /\ outcome_bind
       (getExternalPathUpdater (paths := posixPaths) "/p/old.ts" "/p/new.ts"
          exampleHost)
       (fun updater => updater "/p/old.ts" "./old" true)
     = Returned (Some "./new").
Proof.
  assert (getRelativePathFromFile (PathArithmetic := posixPaths)
            "/p/old.ts" "/p/new.ts"
            (createGetCanonicalFileName (PathArithmetic := posixPaths)
               (hostUsesCaseSensitiveFileNames exampleHost))
          = Returned "./new.ts") as Hold by evaluates.
  assert (getRelativePathFromFile (PathArithmetic := posixPaths)
            "/p/index.ts" "/p/new.ts"
            (createGetCanonicalFileName (PathArithmetic := posixPaths)
               (hostUsesCaseSensitiveFileNames exampleHost))
          = Returned "./new.ts") as Hindex by evaluates.
  split; [|split].
  - destruct (getExternalPathUpdater_exact_match posixPaths
                "/p/old.ts" "/p/new.ts" exampleHost "./new.ts" "lib/old" true
                Hold) as (updater & -> & Hmodule & _).
    apply Hmodule. reflexivity.
  - destruct (getExternalPathUpdater_exact_match posixPaths
                "/p/index.ts" "/p/new.ts" exampleHost "./new.ts" "./p" true
                Hindex) as (updater & -> & _ & Hdirect & _).
    cbn [outcome_bind]. rewrite Hdirect; [evaluates|reflexivity| |evaluates].
    exists "/p", "/index.ts". simpl. repeat split; [tauto|discriminate].
  - destruct (getExternalPathUpdater_exact_match posixPaths
                "/p/old.ts" "/p/new.ts" exampleHost "./new.ts" "./old" true
                Hold) as (updater & -> & _ & _ & Hstripped & _).
    cbn [outcome_bind]. rewrite Hstripped; [evaluates|reflexivity|].
    left. intros (stem & e & He & Hname & _).
    assert (endsWith "/p/old.ts" e = true) as Hends
        by (rewrite Hname; apply endsWith_append).
    simpl in He.
    repeat (destruct He as [<-|He]; [vm_compute in Hends; discriminate Hends|]).
    contradiction.
Defined.

(** C3 as stated fails: in Scenario A the import text "./old" has no
    index-like suffix, and the relative path is not appended to it (which
    gives "./old/new") but to its directory, which gives "./new". *)
Lemma exact_match_strips_a_level_without_index_suffix :
  endsWithSomeIndex (paths := posixPaths) "./old" = false
  /\ outcome_bind
       (getExternalPathUpdater (paths := posixPaths) "/p/old.ts" "/p/new.ts"
          exampleHost)
       (fun updater => updater "/p/old.ts" "./old" true)
     = Returned (Some "./new")
  /\ outcome_bind
       (getRelativePathFromFile (PathArithmetic := posixPaths)
          "/p/old.ts" "/p/new.ts"
          (createGetCanonicalFileName (PathArithmetic := posixPaths)
             (hostUsesCaseSensitiveFileNames exampleHost)))
       (fun rel =>
          Returned (Some (Spec.exactMatchReplacement (paths := posixPaths)
                            "/p/new.ts" rel "./old" true)))
     = Returned (Some "./old/new").
Proof. repeat split; evaluates. Qed.

(** ** Case sensitivity *)

(** C9 (amended): the host's case-sensitivity flag reaches the computation
    only through the relative path of the external updater: two hosts that
    differ in nothing but the flag, and for which the path library gives
    the same relative path from the old path to the new one, get the same
    result, edits or failure.  The internal updater takes no host and its
    directory deltas are computed with [ignoreCase = false], so in every
    project the edits of the files classified as moving are the same for
    any two hosts: whenever the updaters are built (and no reference or
    import of a file that is not moved makes the external updater fail),
    the result is the edits of the configuration scan followed by those of
    the files, and the edits of a moving file are those the internal
    updater gives, whichever the host. *)
Theorem host_case_sensitivity_reaches_external_updater_only :
  forall (paths : PathArithmetic) (program : Program) (oldPath newPath : string)
         (host : LanguageServiceHost),
    (forall flag : option bool,
        let host' :=
          {| useCaseSensitiveFileNames := flag;
             resolveModuleNames := resolveModuleNames host;
             host_getResolvedModuleWithFailedLookupLocationsFromCache :=
               host_getResolvedModuleWithFailedLookupLocationsFromCache host |} in
        getRelativePathFromFile oldPath newPath
          (createGetCanonicalFileName (hostUsesCaseSensitiveFileNames host'))
        = getRelativePathFromFile oldPath newPath
            (createGetCanonicalFileName (hostUsesCaseSensitiveFileNames host)) ->
        getEditsForFileRename program oldPath newPath host'
        = getEditsForFileRename program oldPath newPath host)
    /\ (forall (host' : LanguageServiceHost) (rel rel' : string)
               (deltaNewToOld deltaOldToNew : string),
          getRelativePathFromFile oldPath newPath
            (createGetCanonicalFileName (hostUsesCaseSensitiveFileNames host))
          = Returned rel ->
          getRelativePathFromFile oldPath newPath
            (createGetCanonicalFileName (hostUsesCaseSensitiveFileNames host'))
          = Returned rel' ->
          getRelative newPath oldPath = Returned deltaNewToOld ->
          getRelative oldPath newPath = Returned deltaOldToNew ->
          exists externalPathUpdater externalPathUpdater' internalPathUpdater,
            getExternalPathUpdater oldPath newPath host
            = Returned externalPathUpdater
            /\ getExternalPathUpdater oldPath newPath host'
               = Returned externalPathUpdater'
            /\ getInternalPathUpdater oldPath newPath
               = Returned internalPathUpdater
            /\ ((forall file,
                    In file (getSourceFiles program) ->
                    isMovedFile oldPath newPath file = false ->
                    ~ failsOnFile program externalPathUpdater host file) ->
                getEditsForFileRename program oldPath newPath host
                = Returned
                    (configScanEdits program externalPathUpdater
                     ++ flat_map
                          (sourceFileEdits program externalPathUpdater
                             internalPathUpdater oldPath newPath host)
                          (getSourceFiles program))%list)
            /\ ((forall file,
                    In file (getSourceFiles program) ->
                    isMovedFile oldPath newPath file = false ->
                    ~ failsOnFile program externalPathUpdater' host' file) ->
                getEditsForFileRename program oldPath newPath host'
                = Returned
                    (configScanEdits program externalPathUpdater'
                     ++ flat_map
                          (sourceFileEdits program externalPathUpdater'
                             internalPathUpdater oldPath newPath host')
                          (getSourceFiles program))%list)
            /\ (forall file,
                  isMovedFile oldPath newPath file = true ->
                  sourceFileEdits program externalPathUpdater
                    internalPathUpdater oldPath newPath host file
                  = movedFileEdits internalPathUpdater file
                  /\ sourceFileEdits program externalPathUpdater'
                       internalPathUpdater oldPath newPath host' file
                     = movedFileEdits internalPathUpdater file)).
Proof.
  intros paths program oldPath newPath host. split.
  - intros flag host' Hrel.
    unfold getEditsForFileRename, getExternalPathUpdater. rewrite Hrel.
    reflexivity.
  - intros host' rel rel' deltaNewToOld deltaOldToNew Hrel Hrel'
      HnewToOld HoldToNew.
    destruct (getExternalPathUpdater_builds _ _ _ _ Hrel) as [ext Hext].
    destruct (getExternalPathUpdater_builds _ _ _ _ Hrel') as [ext' Hext'].
    destruct (getInternalPathUpdater_builds _ _ _ _ HnewToOld HoldToNew)
      as [int Hint].
    exists ext, ext', int.
    split; [exact Hext|]. split; [exact Hext'|]. split; [exact Hint|].
    split; [|split].
    + intros Hok.
      now rewrite (getEditsForFileRename_returns program _ _ _ _ _ Hext Hint Hok).
    + intros Hok.
      now rewrite (getEditsForFileRename_returns program _ _ _ _ _ Hext' Hint Hok).
    + intros file Hmoved. unfold sourceFileEdits. rewrite Hmoved. now split.
Qed.

Lemma host_case_sensitivity_reaches_external_updater_only_witness :
  getEditsForFileRename (paths := posixPaths) exampleMixedProgram
    "/p/dir" "/p/sub/dir" caseInsensitiveHost
  = getEditsForFileRename (paths := posixPaths) exampleMixedProgram
      "/p/dir" "/p/sub/dir" exampleHost
  /\ exists externalPathUpdater externalPathUpdater' internalPathUpdater,
       getExternalPathUpdater (paths := posixPaths) "/p/dir" "/p/sub/dir"
         exampleHost
       = Returned externalPathUpdater
       /\ getExternalPathUpdater (paths := posixPaths) "/p/dir" "/p/sub/dir"
            exampleResolvingHost
          = Returned externalPathUpdater'
       /\ getInternalPathUpdater (paths := posixPaths) "/p/dir" "/p/sub/dir"
          = Returned internalPathUpdater
       /\ sourceFileEdits (paths := posixPaths) exampleMixedProgram externalPathUpdater
            internalPathUpdater "/p/dir" "/p/sub/dir" exampleHost
            {| fileName := "/p/dir/inner.ts"; referencedFiles := [];
               imports := [ {| text := "../outside"; getStart := 14;
                               node_end := 26 |} ] |}
          = sourceFileEdits (paths := posixPaths) exampleMixedProgram externalPathUpdater'
              internalPathUpdater "/p/dir" "/p/sub/dir" exampleResolvingHost
              {| fileName := "/p/dir/inner.ts"; referencedFiles := [];
                 imports := [ {| text := "../outside"; getStart := 14;
                                 node_end := 26 |} ] |}.
Proof.
  split.
  - apply (proj1 (host_case_sensitivity_reaches_external_updater_only
                    posixPaths exampleMixedProgram "/p/dir" "/p/sub/dir"
                    exampleHost) (Some false)).
    evaluates.
  - assert (getRelativePathFromFile (PathArithmetic := posixPaths)
              "/p/dir" "/p/sub/dir"
              (createGetCanonicalFileName (PathArithmetic := posixPaths)
                 (hostUsesCaseSensitiveFileNames exampleHost))
            = Returned "./sub/dir") as Hrel by evaluates.
    destruct (proj2 (host_case_sensitivity_reaches_external_updater_only
                       posixPaths exampleMixedProgram "/p/dir" "/p/sub/dir"
                       exampleHost)
                exampleResolvingHost "./sub/dir" "./sub/dir"
                "../../dir" "../sub/dir" Hrel Hrel eq_refl eq_refl)
      as (ext & ext' & int & Hext & Hext' & Hint & _ & _ & Hmoved).
    exists ext, ext', int.
    split; [exact Hext|]. split; [exact Hext'|]. split; [exact Hint|].
    destruct (Hmoved {| fileName := "/p/dir/inner.ts"; referencedFiles := [];
                        imports := [ {| text := "../outside"; getStart := 14;
                                        node_end := 26 |} ] |} eq_refl)
      as [-> ->].
    reflexivity.
Defined.

(** C9 as stated fails: on a host whose file names are not case-sensitive,
    the delta from "/p/a" to "/p/A" is computed by the internal updater as
    "../A", while under the host's flag, as the relative path of the
    external updater is computed, the two are one directory and the delta
    is "./". *)
Lemma internal_delta_ignores_host_case_sensitivity :
  hostUsesCaseSensitiveFileNames caseInsensitiveHost = false
  /\ getRelative (paths := posixPaths) "/p/a" "/p/A" = Returned "../A"
  /\ Spec.getRelative (paths := posixPaths) caseInsensitiveHost "/p/a" "/p/A"
     = Returned "./"
  /\ getRelative (paths := posixPaths) "/p/a" "/p/A"
     <> Spec.getRelative (paths := posixPaths) caseInsensitiveHost "/p/a" "/p/A".
Proof.
  repeat split; try evaluates. differs.
Qed.
(** * Further properties of the service *)

(** ** Directory prefixes and the moved files *)

(** X1: [updateImports] classifies a file as moving exactly when its name is
    the old path, or the old path followed by "/" and more, or the new path,
    or the new path followed by "/" and more. *)
Theorem isMovedFile_membership :
  forall (oldPath newPath : string) (sourceFile : SourceFile),
    isMovedFile oldPath newPath sourceFile = true <->
    fileName sourceFile = oldPath
    \/ (exists rest, fileName sourceFile = oldPath ++ "/" ++ rest)
    \/ fileName sourceFile = newPath
    \/ (exists rest, fileName sourceFile = newPath ++ "/" ++ rest).
Proof.
  intros oldPath newPath sourceFile. unfold isMovedFile.
  rewrite !orb_true_iff, !String.eqb_eq, !truthy_removeDirectoryPrefixFromPath.
  tauto.
Qed.

Lemma isMovedFile_membership_witness :
  isMovedFile "/p/dir" "/p/dir2"
    {| fileName := "/p/dir2/sub/a.ts"; referencedFiles := []; imports := [] |}
  = true.
Proof.
  apply (proj2 (isMovedFile_membership "/p/dir" "/p/dir2"
                  {| fileName := "/p/dir2/sub/a.ts"; referencedFiles := [];
                     imports := [] |})).
  right. right. right. now exists "sub/a.ts".
Defined.
(** X2: directory prefixes compose: when [inner] lies strictly inside
    [outer] and [path] strictly inside [inner], [path] lies strictly inside
    [outer], and its suffix is the two suffixes one after the other. *)
Theorem removeDirectoryPrefixFromPath_nested :
  forall (outer inner path innerSuffix pathSuffix : string),
    removeDirectoryPrefixFromPath outer inner = Some innerSuffix ->
    removeDirectoryPrefixFromPath inner path = Some pathSuffix ->
    removeDirectoryPrefixFromPath outer path = Some (innerSuffix ++ pathSuffix).
Proof.
  intros outer inner path innerSuffix pathSuffix Hinner Hpath.
  apply removeDirectoryPrefixFromPath_Some in Hinner as [-> Hsep].
  apply removeDirectoryPrefixFromPath_Some in Hpath as [-> _].
  apply removeDirectoryPrefixFromPath_Some. split.
  - apply append_assoc.
  - apply startsWith_separator in Hsep as [rest ->].
    apply startsWith_separator. exists (rest ++ pathSuffix). reflexivity.
Qed.

Lemma removeDirectoryPrefixFromPath_nested_witness :
  removeDirectoryPrefixFromPath "/p" "/p/dir/sub/a.ts" = Some ("/dir" ++ "/sub/a.ts").
Proof.
  apply (removeDirectoryPrefixFromPath_nested "/p" "/p/dir" "/p/dir/sub/a.ts");
    reflexivity.
Defined.

(** X3: what [removeDirectoryPrefixFromPath] returns is never the empty
    string, so testing it for truthiness, as [updateImports] and
    [importIsInternalToDirectory] do, tests that it is defined; and a path is
    never strictly inside itself. *)
Theorem removeDirectoryPrefixFromPath_truthiness :
  forall (directory path : string),
    (truthy (removeDirectoryPrefixFromPath directory path) = true <->
     removeDirectoryPrefixFromPath directory path <> None)
    /\ removeDirectoryPrefixFromPath directory path <> Some ""
    /\ removeDirectoryPrefixFromPath directory directory = None.
Proof.
  intros directory path. split; [|split].
  - destruct (removeDirectoryPrefixFromPath directory path) as [w|] eqn:E.
    + apply removeDirectoryPrefixFromPath_Some in E as [_ Hs].
      apply startsWith_separator in Hs as [rest ->].
      split; [discriminate|reflexivity].
    + split; [discriminate|congruence].
  - intros E. apply removeDirectoryPrefixFromPath_Some in E as [_ Hs].
    discriminate Hs.
  - apply removeDirectoryPrefixFromPath_None. intros rest.
    apply append_not_shorter.
Qed.

Lemma removeDirectoryPrefixFromPath_truthiness_witness :
  truthy (removeDirectoryPrefixFromPath "/p/dir" "/p/dir/a.ts") = true.
Proof.
  apply (proj1 (removeDirectoryPrefixFromPath_truthiness "/p/dir" "/p/dir/a.ts")).
  discriminate.
Defined.

(** ** The outcomes of the external path updater *)

(** X4: whenever the path library returns the relative path from the old
    path to the new one, the external updater is built, and it stops at the
    failed assertion exactly when the resolved path is not the old path,
    lies strictly inside it, the original text is relative, and the text
    does not end with the kept suffix (the resolved suffix, in
    module-specifier form for an import). *)
Theorem getExternalPathUpdater_fails_iff :
  forall (paths : PathArithmetic) (oldPath newPath : string)
         (host : LanguageServiceHost) (rel : string),
    getRelativePathFromFile oldPath newPath
      (createGetCanonicalFileName (hostUsesCaseSensitiveFileNames host))
    = Returned rel ->
    exists externalPathUpdater,
      getExternalPathUpdater oldPath newPath host = Returned externalPathUpdater
      /\ forall (fullPath importText : string) (isImport : bool),
           externalPathUpdater fullPath importText isImport = AssertionFailure <->
           fullPath <> oldPath
           /\ pathIsRelative importText = true
           /\ exists relToOld,
                removeDirectoryPrefixFromPath oldPath fullPath = Some relToOld
                /\ forall stripped,
                     importText
                     <> stripped ++ (if isImport then pathToImportPath relToOld
                                     else relToOld).
Proof.
  intros paths oldPath newPath host rel Hrel.
  destruct (getExternalPathUpdater_builds _ _ _ _ Hrel) as [updater Hbuilt].
  exists updater. split; [exact Hbuilt|].
  apply (getExternalPathUpdater_failure _ _ _ _ _ Hrel Hbuilt).
Qed.

Lemma getExternalPathUpdater_fails_iff_witness :
  outcome_bind
    (getExternalPathUpdater (paths := posixPaths) "/p/dir" "/p/dir2" exampleHost)
    (fun updater => updater "/p/dir/b/index.ts" "./dir/b/" true)
  = AssertionFailure.
Proof.
  assert (getRelativePathFromFile (PathArithmetic := posixPaths)
            "/p/dir" "/p/dir2"
            (createGetCanonicalFileName (PathArithmetic := posixPaths)
               (hostUsesCaseSensitiveFileNames exampleHost))
          = Returned "./dir2") as Hrel by evaluates.
  destruct (getExternalPathUpdater_fails_iff posixPaths "/p/dir" "/p/dir2"
              exampleHost "./dir2" Hrel) as (updater & -> & Hfails).
  apply Hfails. repeat split.
  - discriminate.
  - exists "/b/index.ts". split; [reflexivity|].
    apply tryRemoveSuffix_None. evaluates.
Defined.

(** X5: whenever the path library returns the relative path from the old
    path to the new one, the external updater is built, and it returns no
    change exactly when the resolved path is neither the old path nor
    strictly inside it. *)
Theorem getExternalPathUpdater_no_change_iff :
  forall (paths : PathArithmetic) (oldPath newPath : string)
         (host : LanguageServiceHost) (rel : string),
    getRelativePathFromFile oldPath newPath
      (createGetCanonicalFileName (hostUsesCaseSensitiveFileNames host))
    = Returned rel ->
    exists externalPathUpdater,
      getExternalPathUpdater oldPath newPath host = Returned externalPathUpdater
      /\ forall (fullPath importText : string) (isImport : bool),
           externalPathUpdater fullPath importText isImport = Returned None <->
           fullPath <> oldPath /\ forall rest, fullPath <> oldPath ++ "/" ++ rest.
Proof.
  intros paths oldPath newPath host rel Hrel.
  destruct (getExternalPathUpdater_builds _ _ _ _ Hrel) as [updater Hbuilt].
  exists updater. split; [exact Hbuilt|].
  apply (getExternalPathUpdater_no_change _ _ _ _ _ Hrel Hbuilt).
Qed.

Lemma getExternalPathUpdater_no_change_iff_witness :
  outcome_bind
    (getExternalPathUpdater (paths := posixPaths) "/p/dir" "/p/dir2" exampleHost)
    (fun updater => updater "/p/dirt/b.ts" "./dirt/b" true)
  = Returned None.
Proof.
  assert (getRelativePathFromFile (PathArithmetic := posixPaths)
            "/p/dir" "/p/dir2"
            (createGetCanonicalFileName (PathArithmetic := posixPaths)
               (hostUsesCaseSensitiveFileNames exampleHost))
          = Returned "./dir2") as Hrel by evaluates.
  destruct (getExternalPathUpdater_no_change_iff posixPaths "/p/dir" "/p/dir2"
              exampleHost "./dir2" Hrel) as (updater & -> & Hnone).
  apply Hnone. split.
  - discriminate.
  - intros rest H. vm_compute in H. discriminate H.
Defined.

(** ** The configuration scan *)

(** X6: the configuration scan itself never stops at the failed assertion:
    an entry is passed as resolved path and as original text at once, so
    the text always ends with the kept suffix.  Once the external updater
    is built, the scan records, in order, one edit for each string entry of
    the "files" arrays for which the updater gives a replacement, and
    nothing when the project has no configuration file; the only failure is
    that of the path library while the updater is built (as with the old
    path "/p/dir" and the new path "dir2", one rooted and one not). *)
Theorem updateTsconfigFiles_never_fails :
  forall (paths : PathArithmetic) (program : Program) (oldPath newPath : string)
         (host : LanguageServiceHost) (changes : ChangeTracker.t),
    (forall externalPathUpdater,
        getExternalPathUpdater oldPath newPath host = Returned externalPathUpdater ->
        updateTsconfigFiles program externalPathUpdater changes
        = Returned (tt, (changes
                         ++ configScanEdits program externalPathUpdater)%list))
    /\ (outcome_bind (getExternalPathUpdater oldPath newPath host)
          (fun externalPathUpdater =>
             updateTsconfigFiles program externalPathUpdater changes)
        = AssertionFailure
        <-> getRelativePathFromFile oldPath newPath
              (createGetCanonicalFileName (hostUsesCaseSensitiveFileNames host))
            = AssertionFailure).
Proof.
  intros paths program oldPath newPath host changes. split.
  - intros ext Hext.
    exact (updateTsconfigFiles_built program _ _ _ _ Hext changes).
  - rewrite <- getExternalPathUpdater_not_built.
    destruct (getExternalPathUpdater oldPath newPath host) as [ext|] eqn:Hext;
      cbn [outcome_bind]; [|tauto].
    rewrite (updateTsconfigFiles_built program _ _ _ _ Hext changes).
    split; discriminate.
Qed.

Lemma updateTsconfigFiles_never_fails_witness :
  outcome_bind
    (getExternalPathUpdater (paths := posixPaths) "/p/dir" "dir2" exampleHost)
    (fun externalPathUpdater =>
       updateTsconfigFiles exampleConfigProgram externalPathUpdater [])
  = AssertionFailure.
Proof.
  apply (proj2 (updateTsconfigFiles_never_fails posixPaths exampleConfigProgram
                  "/p/dir" "dir2" exampleHost [])).
  evaluates.
Defined.

(** X7: renaming back undoes the rewriting of a configuration entry: when
    neither path is a relative path and the path library returns the
    relative path in both directions, the two external updaters are built,
    and when the rename from the old path to the new one replaces an entry,
    the rename from the new path to the old one replaces the result by the
    original entry. *)
Theorem config_entry_rename_round_trip :
  forall (paths : PathArithmetic) (oldPath newPath : string)
         (host host' : LanguageServiceHost) (rel rel' : string),
    pathIsRelative oldPath = false ->
    pathIsRelative newPath = false ->
    getRelativePathFromFile oldPath newPath
      (createGetCanonicalFileName (hostUsesCaseSensitiveFileNames host))
    = Returned rel ->
    getRelativePathFromFile newPath oldPath
      (createGetCanonicalFileName (hostUsesCaseSensitiveFileNames host'))
    = Returned rel' ->
    exists forth back,
      getExternalPathUpdater oldPath newPath host = Returned forth
      /\ getExternalPathUpdater newPath oldPath host' = Returned back
      /\ forall entry replacement,
           forth entry entry false = Returned (Some replacement) ->
           back replacement replacement false = Returned (Some entry).
Proof.
  intros paths oldPath newPath host host' rel rel' Hold Hnew Hrel Hrel'.
  destruct (getExternalPathUpdater_builds _ _ _ _ Hrel) as [forth Hforth].
  destruct (getExternalPathUpdater_builds _ _ _ _ Hrel') as [back Hback].
  exists forth, back. split; [exact Hforth|]. split; [exact Hback|].
  intros entry replacement Hrun.
  rewrite (getExternalPathUpdater_entry _ _ _ _ _ Hrel Hforth) in Hrun
    by exact Hold.
  rewrite (getExternalPathUpdater_entry _ _ _ _ _ Hrel' Hback) by exact Hnew.
  injection Hrun as Hrun. f_equal.
  apply rewrittenEntry_Some in Hrun
    as [[-> ->]|(_ & rest & -> & ->)]; apply rewrittenEntry_Some.
  - now left.
  - right. split; [|now exists rest].
    intros H. symmetry in H. exact (append_not_shorter _ _ H).
Qed.

Lemma config_entry_rename_round_trip_witness :
  outcome_bind
    (getExternalPathUpdater (paths := posixPaths) "/p/dir2" "/p/dir"
       caseInsensitiveHost)
    (fun back => back "/p/dir2/a.ts" "/p/dir2/a.ts" false)
  = Returned (Some "/p/dir/a.ts").
Proof.
  assert (getRelativePathFromFile (PathArithmetic := posixPaths)
            "/p/dir" "/p/dir2"
            (createGetCanonicalFileName (PathArithmetic := posixPaths)
               (hostUsesCaseSensitiveFileNames exampleHost))
          = Returned "./dir2") as Hrel by evaluates.
  assert (getRelativePathFromFile (PathArithmetic := posixPaths)
            "/p/dir2" "/p/dir"
            (createGetCanonicalFileName (PathArithmetic := posixPaths)
               (hostUsesCaseSensitiveFileNames caseInsensitiveHost))
          = Returned "./dir") as Hrel' by evaluates.
  destruct (config_entry_rename_round_trip posixPaths "/p/dir" "/p/dir2"
              exampleHost caseInsensitiveHost "./dir2" "./dir"
              eq_refl eq_refl Hrel Hrel')
    as (forth & back & Hforth & -> & Hround).
  apply (Hround "/p/dir/a.ts").
  assert (outcome_bind
            (getExternalPathUpdater (paths := posixPaths) "/p/dir" "/p/dir2"
               exampleHost)
            (fun forth => forth "/p/dir/a.ts" "/p/dir/a.ts" false)
          = Returned (Some "/p/dir2/a.ts")) as Hrun by evaluates.
  now rewrite Hforth in Hrun.
Defined.

(** ** The edits of one source file *)

(** X8: when no callback stops at a failed assertion, the worker returns and
    appends to the tracker, keeping what was recorded before: first the
    edits of the reference directives, then those of the imports, each in
    the order of the file, one edit for each reference or import whose
    callback gives a replacement and none for the others. *)
Theorem updateImportsWorker_edits_in_order :
  forall (sourceFile : SourceFile)
         (updateRef updateImport : string -> outcome (option string))
         (changes : ChangeTracker.t),
    (forall ref, In ref (referencedFiles sourceFile) ->
                 updateRef (reference_fileName ref) <> AssertionFailure) ->
    (forall literal, In literal (imports sourceFile) ->
                     updateImport (text literal) <> AssertionFailure) ->
    updateImportsWorker sourceFile updateRef updateImport changes
    = Returned
        (tt,
         (changes
          ++ flat_map (fun ref => match updateRef (reference_fileName ref) with
                                  | Returned (Some u) =>
                                      [ {| edit_fileName := fileName sourceFile;
                                           edit_range := reference_range ref;
                                           newText := u |} ]
                                  | _ => []
                                  end)
                      (referencedFiles sourceFile)
          ++ flat_map (fun literal => match updateImport (text literal) with
                                      | Returned (Some u) =>
                                          [ {| edit_fileName := fileName sourceFile;
                                               edit_range := createStringRange literal;
                                               newText := u |} ]
                                      | _ => []
                                      end)
                      (imports sourceFile))%list).
Proof.
  intros sourceFile updateRef updateImport changes Hrefs Himports.
  now rewrite updateImportsWorker_returns.
Qed.


Lemma updateImportsWorker_edits_in_order_witness :
  updateImportsWorker exampleReferencingFile
    (fun referenceText =>
       outcome_bind
         (getExternalPathUpdater (paths := posixPaths) "/p/dir" "/p/dir2"
            exampleHost)
         (fun updater =>
            updater
              (resolveTripleslashReference (PathArithmetic := posixPaths)
                 referenceText "/p/a.ts")
              referenceText false))
    (fun importText =>
       if String.eqb importText "./old" then Returned (Some "./new")
       else Returned None)
    []
  = Returned (tt, [ {| edit_fileName := "/p/a.ts";
                       edit_range := createTextRange 21 37;
                       newText := "./dir2/types.d.ts" |};
                    {| edit_fileName := "/p/a.ts";
                       edit_range := createTextRange 55 60;
                       newText := "./new" |} ]).
Proof.
  rewrite updateImportsWorker_edits_in_order.
  - evaluates.
  - intros ref [<-|[]]. differs.
  - intros literal [<-|[<-|[]]]; vm_compute; discriminate.
Defined.

(** X9: a single failing reference or import stops everything.  The worker
    stops at a failed assertion exactly when the callback of one of the
    file's reference directives or of one of its imports does; and the
    whole computation stops at a failed assertion, returning no edit at
    all, exactly when one of the two updaters cannot be built or the
    external updater stops on a reference directive or on an import of a
    file of the project that is not moved. *)
Theorem updateImportsWorker_fails_iff :
  forall (paths : PathArithmetic),
    (forall (sourceFile : SourceFile)
            (updateRef updateImport : string -> outcome (option string))
            (changes : ChangeTracker.t),
        updateImportsWorker sourceFile updateRef updateImport changes
        = AssertionFailure <->
        (exists ref, In ref (referencedFiles sourceFile)
                     /\ updateRef (reference_fileName ref) = AssertionFailure)
        \/ (exists literal, In literal (imports sourceFile)
                            /\ updateImport (text literal) = AssertionFailure))
    /\ (forall (program : Program) (oldPath newPath : string)
               (host : LanguageServiceHost),
          getEditsForFileRename program oldPath newPath host = AssertionFailure
          <->
          getExternalPathUpdater oldPath newPath host = AssertionFailure
          \/ getInternalPathUpdater oldPath newPath = AssertionFailure
          \/ exists externalPathUpdater sourceFile,
               getExternalPathUpdater oldPath newPath host
               = Returned externalPathUpdater
               /\ In sourceFile (getSourceFiles program)
               /\ isMovedFile oldPath newPath sourceFile = false
               /\ ((exists ref,
                       In ref (referencedFiles sourceFile)
                       /\ externalPathUpdater
                            (resolveTripleslashReference (reference_fileName ref)
                               (fileName sourceFile))
                            (reference_fileName ref) false
                          = AssertionFailure)
                   \/ (exists literal,
                          In literal (imports sourceFile)
                          /\ updateImportOfUnmovedFile program externalPathUpdater
                               host sourceFile (text literal)
                             = AssertionFailure))).
Proof.
  intros paths. split.
  - intros sourceFile updateRef updateImport changes.
    apply updateImportsWorker_failure.
  - intros program oldPath newPath host.
    destruct (getExternalPathUpdater oldPath newPath host) as [ext|] eqn:Hext.
    2: { split; [now left|]. intros _.
         apply getEditsForFileRename_not_built. now left. }
    destruct (getInternalPathUpdater oldPath newPath) as [int|] eqn:Hint.
    2: { split; [right; now left|]. intros _.
         apply getEditsForFileRename_not_built. now right. }
    rewrite (getEditsForFileRename_failure program _ _ _ _ _ Hext Hint).
    split.
    + intros (sourceFile & Hin & Hunmoved & Hfails).
      right. right. exists ext, sourceFile. now repeat split.
    + intros [H|[H|(ext' & sourceFile & H & Hin & Hunmoved & Hfails)]];
        try discriminate H.
      injection H as <-. now exists sourceFile.
Qed.

Lemma updateImportsWorker_fails_iff_witness :
  getEditsForFileRename (paths := posixPaths) exampleTrailingSeparatorProgram
    "/p/dir" "/p/dir2" exampleHost
  = AssertionFailure.
Proof.
  assert (getRelativePathFromFile (PathArithmetic := posixPaths)
            "/p/dir" "/p/dir2"
            (createGetCanonicalFileName (PathArithmetic := posixPaths)
               (hostUsesCaseSensitiveFileNames exampleHost))
          = Returned "./dir2") as Hrel by evaluates.
  destruct (getExternalPathUpdater_builds _ _ _ _ Hrel) as [ext Hext].
  apply (proj2 (updateImportsWorker_fails_iff posixPaths)).
  right. right. exists ext, exampleTrailingSeparatorFile.
  split; [exact Hext|]. split; [now left|]. split; [evaluates|].
  right. exists {| text := "./dir/b/"; getStart := 14; node_end := 24 |}.
  split; [now left|].
  unfold updateImportOfUnmovedFile.
  change (firstDefinedE ["/p/dir/b/index.ts"]
            (fun path => ext path "./dir/b/" true)
          = AssertionFailure).
  rewrite (firstDefinedE_singleton "/p/dir/b/index.ts"
             (fun path => ext path "./dir/b/" true)).
  apply (getExternalPathUpdater_failure _ _ _ _ _ Hrel Hext). repeat split.
  - discriminate.
  - exists "/b/index.ts". split; [reflexivity|].
    apply tryRemoveSuffix_None. evaluates.
Defined.

(** ** The whole computation *)

Section WholeComputation.

Context {paths : PathArithmetic}.

Import ChangeTracker.

Lemma updateImports_bounded (program : Program)
  (externalPathUpdater : ExternalPathUpdater)
  (internalPathUpdater : InternalPathUpdater) (oldPath newPath : string)
  (host : LanguageServiceHost) (changes : t) (u : unit) (changes' : t) :
  updateImports program externalPathUpdater internalPathUpdater
    oldPath newPath host changes
  = Returned (u, changes') ->
  exists es,
    changes' = (changes ++ es)%list
    /\ List.length es
       <= list_sum (map (fun sourceFile =>
                           List.length (referencedFiles sourceFile)
                           + List.length (imports sourceFile))
                        (getSourceFiles program))
    /\ Forall (fun e => exists sourceFile,
                   In sourceFile (getSourceFiles program)
                   /\ edit_fileName e = fileName sourceFile)
              es.
Proof.
  intros Hrun. pose proof Hrun as Hrun'. unfold updateImports in Hrun, Hrun'.
  apply (forOf_bounded _ _
           (fun sourceFile => List.length (referencedFiles sourceFile)
                              + List.length (imports sourceFile)))
    in Hrun as (es & -> & L).
  2: { intros sourceFile c v c' _ Hstep.
       destruct (isMovedFile oldPath newPath sourceFile);
         apply updateImportsWorker_bounded in Hstep as (es & -> & L & _);
         now exists es. }
  apply (forOf_appends
           (fun e => exists sourceFile,
                In sourceFile (getSourceFiles program)
                /\ edit_fileName e = fileName sourceFile))
    in Hrun' as (es' & E & P).
  2: { intros sourceFile c v c' Hin Hstep.
       destruct (isMovedFile oldPath newPath sourceFile);
         apply updateImportsWorker_bounded in Hstep as (es0 & -> & _ & P0);
         exists es0; (split; [reflexivity|]);
         (eapply Forall_impl; [|exact P0]); intros e He; now exists sourceFile. }
  apply app_inv_head in E. subst es'. now exists es.
Qed.

End WholeComputation.

(** X10: in a project all of whose files are classified as moving, the
    computation fails only when one of the two updaters cannot be built
    (the path library fails its assertion on the two paths, as with the old
    path "/p/dir" and the new path "dir2"); otherwise it returns the edits
    of the configuration scan followed by the edits the internal updater
    gives for the files, in the order of the files. *)
Theorem getEditsForFileRename_all_moved :
  forall (paths : PathArithmetic) (program : Program) (oldPath newPath : string)
         (host : LanguageServiceHost),
    (forall sourceFile, In sourceFile (getSourceFiles program) ->
                        isMovedFile oldPath newPath sourceFile = true) ->
    getEditsForFileRename program oldPath newPath host
    = outcome_bind (getExternalPathUpdater oldPath newPath host)
        (fun externalPathUpdater =>
           outcome_bind (getInternalPathUpdater oldPath newPath)
             (fun internalPathUpdater =>
                Returned
                  (configScanEdits program externalPathUpdater
                   ++ flat_map (movedFileEdits internalPathUpdater)
                               (getSourceFiles program))%list)).
Proof.
  intros paths program oldPath newPath host Hmoved.
  destruct (getExternalPathUpdater oldPath newPath host) as [ext|] eqn:Hext.
  2: { apply getEditsForFileRename_not_built. now left. }
  destruct (getInternalPathUpdater oldPath newPath) as [int|] eqn:Hint.
  2: { apply getEditsForFileRename_not_built. now right. }
  cbn [outcome_bind].
  rewrite (getEditsForFileRename_returns program _ _ _ _ _ Hext Hint).
  - unfold projectEdits. do 2 f_equal. apply flat_map_ext_In.
    intros sourceFile Hin. unfold sourceFileEdits. now rewrite (Hmoved _ Hin).
  - intros sourceFile Hin Hunmoved. rewrite (Hmoved _ Hin) in Hunmoved.
    discriminate Hunmoved.
Qed.

Lemma getEditsForFileRename_all_moved_witness :
  getEditsForFileRename (paths := posixPaths) exampleMovedProgram
    "/p/dir" "/p/sub/dir" exampleHost
  = Returned [ {| edit_fileName := "/p/dir/inner.ts";
                  edit_range := createTextRange 15 25;
                  newText := "../../outside" |} ]
  /\ getEditsForFileRename (paths := posixPaths) exampleMovedProgram
       "/p/dir" "dir2" exampleHost
     = AssertionFailure.
Proof.
  split.
  - rewrite getEditsForFileRename_all_moved.
    + evaluates.
    + intros sourceFile [<-|[]]. evaluates.
  - rewrite getEditsForFileRename_all_moved.
    + evaluates.
    + intros sourceFile [<-|[]]. evaluates.
Defined.

(** X11: when the computation returns, every edit is for the configuration
    file or for one of the source files of the project, and there are no
    more edits than string entries in the "files" arrays plus reference
    directives and imports of the source files: at most one edit for each. *)
Theorem getEditsForFileRename_edits_within_project :
  forall (paths : PathArithmetic) (program : Program) (oldPath newPath : string)
         (host : LanguageServiceHost) (edits : list TextEdit),
    getEditsForFileRename program oldPath newPath host = Returned edits ->
    List.length edits <= editablePlaces program
    /\ Forall (fun e =>
                 (exists config, configFile program = Some config
                                 /\ edit_fileName e = config_fileName config)
                 \/ (exists sourceFile,
                        In sourceFile (getSourceFiles program)
                        /\ edit_fileName e = fileName sourceFile))
              edits.
Proof.
  intros paths program oldPath newPath host edits Hrun.
  unfold getEditsForFileRename in Hrun.
  destruct (getExternalPathUpdater oldPath newPath host) as [ext|];
    [|discriminate].
  destruct (getInternalPathUpdater oldPath newPath) as [int|];
    [|discriminate].
  cbn [outcome_bind] in Hrun.
  unfold ChangeTracker.with_, ChangeTracker.bind in Hrun.
  destruct (updateTsconfigFiles program _ []) as [[u1 c1]|] eqn:Hconfig;
    [|discriminate].
  destruct (updateImports program _ _ oldPath newPath host c1) as [[u2 c2]|]
    eqn:Himports; [|discriminate].
  injection Hrun as <-.
  apply updateTsconfigFiles_bounded in Hconfig as (es1 & -> & L1 & P1).
  apply updateImports_bounded in Himports as (es2 & -> & L2 & P2).
  simpl. split.
  - rewrite length_app. unfold editablePlaces. lia.
  - apply Forall_app. split.
    + eapply Forall_impl; [|exact P1]. intros e He. now left.
    + eapply Forall_impl; [|exact P2]. intros e He. now right.
Qed.

Lemma getEditsForFileRename_edits_within_project_witness :
  List.length [ {| edit_fileName := "/p/tsconfig.json";
                   edit_range := createTextRange 31 42;
                   newText := "/p/dir2/a.ts" |};
                {| edit_fileName := "/p/tsconfig.json";
                   edit_range := createTextRange 51 57;
                   newText := "/p/dir2" |} ]
  <= editablePlaces exampleConfigProgram.
Proof.
  apply (getEditsForFileRename_edits_within_project posixPaths
           exampleConfigProgram "/p/dir" "/p/dir2" exampleHost).
  evaluates.
Defined.

(** ** Module resolution for the files that are not moved *)

(** X12: where the resolution of an import of a file that is not moved
    comes from, read off the result of the computation.  Whenever the path
    library returns the relative path and the two directory deltas, the
    updaters are built, and: with a host that resolves module names itself
    and exposes no cache, no import of a file that is not moved gets an
    edit, whatever the program's cache holds: the result is the edits of
    the configuration scan, then, file by file, those of the internal
    updater for a moving file and those of the reference directives alone
    for another (provided no reference directive makes the external updater
    fail); and when the resolution of an import succeeded, the edit at the
    import's place is the one the updater gives for the resolved file name
    alone, the failed-lookup candidates not being looked at (provided no
    reference or import of a file that is not moved makes the external
    updater fail). *)
Theorem import_resolution_sources :
  forall (paths : PathArithmetic) (program : Program) (oldPath newPath : string)
         (host : LanguageServiceHost) (rel deltaNewToOld deltaOldToNew : string),
    getRelativePathFromFile oldPath newPath
      (createGetCanonicalFileName (hostUsesCaseSensitiveFileNames host))
    = Returned rel ->
    getRelative newPath oldPath = Returned deltaNewToOld ->
    getRelative oldPath newPath = Returned deltaOldToNew ->
    exists externalPathUpdater internalPathUpdater,
      getExternalPathUpdater oldPath newPath host = Returned externalPathUpdater
      /\ getInternalPathUpdater oldPath newPath = Returned internalPathUpdater
      /\ (resolveModuleNames host = true ->
          host_getResolvedModuleWithFailedLookupLocationsFromCache host = None ->
          (forall sourceFile ref,
              In sourceFile (getSourceFiles program) ->
              isMovedFile oldPath newPath sourceFile = false ->
              In ref (referencedFiles sourceFile) ->
              externalPathUpdater
                (resolveTripleslashReference (reference_fileName ref)
                   (fileName sourceFile))
                (reference_fileName ref) false
              <> AssertionFailure) ->
          getEditsForFileRename program oldPath newPath host
          = Returned
              (configScanEdits program externalPathUpdater
               ++ flat_map
                    (fun sourceFile =>
                       if isMovedFile oldPath newPath sourceFile
                       then movedFileEdits internalPathUpdater sourceFile
                       else referenceEdits externalPathUpdater sourceFile)
                    (getSourceFiles program))%list)
      /\ (forall filesBefore filesAfter sourceFile importsBefore importsAfter
                 literal resolved resolvedFileName,
            getSourceFiles program
            = (filesBefore ++ sourceFile :: filesAfter)%list ->
            isMovedFile oldPath newPath sourceFile = false ->
            imports sourceFile = (importsBefore ++ literal :: importsAfter)%list ->
            cachedResolution program host (text literal) (fileName sourceFile)
            = Some resolved ->
            resolvedModule resolved = Some resolvedFileName ->
            (forall file,
                In file (getSourceFiles program) ->
                isMovedFile oldPath newPath file = false ->
                ~ failsOnFile program externalPathUpdater host file) ->
            getEditsForFileRename program oldPath newPath host
            = Returned
                (editsBeforeImport program externalPathUpdater
                   internalPathUpdater oldPath newPath host filesBefore
                   sourceFile importsBefore
                 ++ updateEdit (fileName sourceFile) (createStringRange literal)
                      (externalPathUpdater resolvedFileName (text literal) true)
                 ++ editsAfterImport program externalPathUpdater
                      internalPathUpdater oldPath newPath host sourceFile
                      importsAfter filesAfter)%list).
Proof.
  intros paths program oldPath newPath host rel deltaNewToOld deltaOldToNew
    Hrel HnewToOld HoldToNew.
  destruct (getExternalPathUpdater_builds _ _ _ _ Hrel) as [ext Hext].
  destruct (getInternalPathUpdater_builds _ _ _ _ HnewToOld HoldToNew)
    as [int Hint].
  exists ext, int. split; [exact Hext|]. split; [exact Hint|]. split.
  - intros Hresolves Hcache Hrefs.
    assert (forall sourceFile importText,
               updateImportOfUnmovedFile program ext host sourceFile importText
               = Returned None) as Himport.
    { intros sourceFile importText.
      unfold updateImportOfUnmovedFile, cachedResolution.
      now rewrite Hresolves, Hcache. }
    rewrite (getEditsForFileRename_returns program _ _ _ _ _ Hext Hint).
    + unfold projectEdits. do 2 f_equal. apply flat_map_ext. intros sourceFile.
      unfold sourceFileEdits.
      destruct (isMovedFile oldPath newPath sourceFile); [reflexivity|].
      unfold unmovedFileEdits, workerEdits, referenceEdits.
      rewrite (flat_map_all_nil _ (imports sourceFile)).
      * apply app_nil_r.
      * intros literal _. now rewrite Himport.
    + intros sourceFile Hin Hunmoved
        [(ref & Hr & Hfail)|(literal & _ & Hfail)].
      * exact (Hrefs sourceFile ref Hin Hunmoved Hr Hfail).
      * rewrite Himport in Hfail. discriminate Hfail.
  - intros filesBefore filesAfter sourceFile importsBefore importsAfter
      literal resolved resolvedFileName Hfiles Hunmoved Himports Hresolved
      Hmodule Hok.
    rewrite (getEditsForFileRename_returns program _ _ _ _ _ Hext Hint Hok).
    rewrite (projectEdits_at_import program oldPath newPath host ext int
               filesBefore filesAfter sourceFile importsBefore importsAfter
               literal Hfiles Hunmoved Himports).
    unfold importEdit, updateImportOfUnmovedFile.
    rewrite Hresolved, Hmodule.
    now rewrite (firstDefinedE_singleton resolvedFileName
                   (fun path => ext path (text literal) true)).
Qed.

Lemma import_resolution_sources_witness :
  getEditsForFileRename (paths := posixPaths) exampleMixedProgram
    "/p/dir" "/p/sub/dir" exampleResolvingHost
  = Returned [ {| edit_fileName := "/p/dir/inner.ts";
                  edit_range := createTextRange 15 25;
                  newText := "../../outside" |} ].
Proof.
  assert (getRelativePathFromFile (PathArithmetic := posixPaths)
            "/p/dir" "/p/sub/dir"
            (createGetCanonicalFileName (PathArithmetic := posixPaths)
               (hostUsesCaseSensitiveFileNames exampleResolvingHost))
          = Returned "./sub/dir") as Hrel by evaluates.
  destruct (import_resolution_sources posixPaths exampleMixedProgram
              "/p/dir" "/p/sub/dir" exampleResolvingHost
              "./sub/dir" "../../dir" "../sub/dir" Hrel eq_refl eq_refl)
    as (ext & int & Hext & Hint & Hnocache & _).
  rewrite Hnocache; try reflexivity.
  - assert (outcome_bind
              (getInternalPathUpdater (paths := posixPaths) "/p/dir" "/p/sub/dir")
              (fun updater =>
                 Returned
                   (flat_map
                      (fun sourceFile =>
                         if isMovedFile "/p/dir" "/p/sub/dir" sourceFile
                         then movedFileEdits updater sourceFile
                         else [])
                      (getSourceFiles exampleMixedProgram)))
            = Returned [ {| edit_fileName := "/p/dir/inner.ts";
                            edit_range := createTextRange 15 25;
                            newText := "../../outside" |} ]) as Hrun
        by evaluates.
    rewrite Hint in Hrun. cbn [outcome_bind] in Hrun.
    injection Hrun as Hrun. rewrite <- Hrun. reflexivity.
  - intros sourceFile ref [<-|[<-|[<-|[]]]] _ [].
Defined.

(** X13: the failed-lookup candidates are tried in order without recovery:
    when the candidates before one are left unchanged and the updater stops
    at the failed assertion on that one, the import's callback stops there
    too, even if a later candidate would have given a replacement. *)
Theorem failed_lookup_candidate_failure_propagates :
  forall (program : Program) (host : LanguageServiceHost)
         (externalPathUpdater : ExternalPathUpdater)
         (sourceFile : SourceFile) (importText : string)
         (resolved : ResolvedModuleWithFailedLookupLocations)
         (pre post : list string) (candidate : string),
    cachedResolution program host importText (fileName sourceFile) = Some resolved ->
    resolvedModule resolved = None ->
    failedLookupLocations resolved = (pre ++ candidate :: post)%list ->
    (forall p, In p pre -> externalPathUpdater p importText true = Returned None) ->
    externalPathUpdater candidate importText true = AssertionFailure ->
    updateImportOfUnmovedFile program externalPathUpdater host sourceFile importText
    = AssertionFailure.
Proof.
  intros program host externalPathUpdater sourceFile importText resolved
    pre post candidate Hres Hfailed Hlist Hpre Hcand.
  unfold updateImportOfUnmovedFile. rewrite Hres, Hfailed.
  now apply (firstDefinedE_fails _ pre post candidate).
Qed.


Lemma failed_lookup_candidate_failure_propagates_witness :
  outcome_bind
    (getExternalPathUpdater (paths := posixPaths) "/p/dir" "/p/dir2" exampleHost)
    (fun updater =>
       updateImportOfUnmovedFile exampleTrailingSeparatorFailedProgram updater
         exampleHost exampleTrailingSeparatorFile "./dir/b/")
  = AssertionFailure
  /\ outcome_bind
       (getExternalPathUpdater (paths := posixPaths) "/p/dir" "/p/dir2" exampleHost)
       (fun updater => updater "/p/dir/package.json" "./dir/b/" true)
     = Returned (Some "./dir/dir2").
Proof.
  split; [|evaluates].
  assert (getRelativePathFromFile (PathArithmetic := posixPaths)
            "/p/dir" "/p/dir2"
            (createGetCanonicalFileName (PathArithmetic := posixPaths)
               (hostUsesCaseSensitiveFileNames exampleHost))
          = Returned "./dir2") as Hrel by evaluates.
  destruct (getExternalPathUpdater_builds _ _ _ _ Hrel) as [ext Hext].
  rewrite Hext. cbn [outcome_bind].
  apply (failed_lookup_candidate_failure_propagates
           exampleTrailingSeparatorFailedProgram exampleHost ext
           exampleTrailingSeparatorFile "./dir/b/"
           {| resolvedModule := None;
              failedLookupLocations :=
                ["/p/other/b.ts"; "/p/dir/b/package.json";
                 "/p/dir/package.json"] |}
           ["/p/other/b.ts"] ["/p/dir/package.json"] "/p/dir/b/package.json");
    try reflexivity.
  - intros p [<-|[]].
    apply (getExternalPathUpdater_outside exampleHost _ _ _ _ Hrel Hext).
    now apply outsidePath_evaluated.
  - apply (getExternalPathUpdater_failure _ _ _ _ _ Hrel Hext). repeat split.
    + discriminate.
    + exists "/b/package.json". split; [reflexivity|].
      apply tryRemoveSuffix_None. evaluates.
Defined.

(** ** When the internal updater leaves an import alone *)

(** X14: whenever the path library returns the two directory deltas, the
    internal path updater is built, and it returns no change exactly when
    the delta from the new directory to the old one is ".", or the import
    text is not relative, or the import is internal to the old directory,
    or it is internal to the new directory; in particular a module name
    imported by a moved file is never rewritten. *)
Theorem getInternalPathUpdater_no_change_iff :
  forall (paths : PathArithmetic) (oldPath newPath : string)
         (deltaNewToOld deltaOldToNew : string),
    getRelative newPath oldPath = Returned deltaNewToOld ->
    getRelative oldPath newPath = Returned deltaOldToNew ->
    exists internalPathUpdater,
      getInternalPathUpdater oldPath newPath = Returned internalPathUpdater
      /\ forall (sourceFile : SourceFile) (importText : string),
           internalPathUpdater sourceFile importText = None <->
           deltaNewToOld = "."
           \/ pathIsRelative importText = false
           \/ (exists rest,
                  combineNormal (getDirectoryPath (fileName sourceFile)) importText
                  = oldPath ++ "/" ++ rest)
           \/ (exists rest,
                  combineNormal (getDirectoryPath (fileName sourceFile)) importText
                  = newPath ++ "/" ++ rest).
Proof.
  intros paths oldPath newPath deltaNewToOld deltaOldToNew HnewToOld HoldToNew.
  destruct (getInternalPathUpdater_builds _ _ _ _ HnewToOld HoldToNew)
    as [updater Hbuilt].
  exists updater. split; [exact Hbuilt|]. intros sourceFile importText.
  rewrite <- !importIsInternalToDirectory_true.
  destruct (String.eqb_spec deltaNewToOld ".") as [Hdelta|Hdelta].
  - rewrite (getInternalPathUpdater_shortcut _ _ _ _ HnewToOld Hbuilt _ _ Hdelta).
    split; [now left|reflexivity].
  - destruct (getInternalPathUpdater_closure _ _ _ _ HnewToOld Hbuilt
                sourceFile importText Hdelta) as (delta & _ & ->).
    destruct (pathIsRelative importText); cbn [negb orb].
    + destruct (importIsInternalToDirectory oldPath _ importText); cbn [orb].
      * split; [intros _; right; right; now left|reflexivity].
      * destruct (importIsInternalToDirectory newPath _ importText).
        -- split; [intros _; right; right; now right|reflexivity].
        -- destruct (tryRemovePrefix importText _); split; try discriminate;
             intros [H|[H|[H|H]]]; congruence.
    + split; [intros _; right; now left|reflexivity].
Qed.

Lemma getInternalPathUpdater_no_change_iff_witness :
  outcome_bind (getInternalPathUpdater (paths := posixPaths) "/p/dir" "/p/dir2")
    (fun updater =>
       Returned (updater {| fileName := "/p/dir/a.ts"; referencedFiles := [];
                            imports := [] |} "react"))
  = Returned None
  /\ outcome_bind (getInternalPathUpdater (paths := posixPaths) "/p/dir" "/p/dir2")
       (fun updater =>
          Returned (updater {| fileName := "/p/dir/a.ts"; referencedFiles := [];
                               imports := [] |} "./b"))
     = Returned None.
Proof.
  destruct (getInternalPathUpdater_no_change_iff posixPaths "/p/dir" "/p/dir2"
              "../dir" "../dir2" eq_refl eq_refl) as (updater & -> & Hnone).
  cbn [outcome_bind]. split; f_equal; apply Hnone.
  - right. left. reflexivity.
  - right. right. left. exists "b". evaluates.
Defined.

(** ** The module-specifier form keeps the front of a name *)

Lemma posix_removeFileExtension_prefix (path : string) :
  exists rest, path = Posix.removeFileExtension path ++ rest.
Proof.
  unfold Posix.removeFileExtension.
  destruct (firstDefined Posix.extensionsToRemove _) as [extensionless|] eqn:E.
  - apply firstDefined_Some in E as (pre & ext & post & _ & _ & Hext).
    unfold Posix.fileExtensionIs in Hext.
    destruct (_ && endsWith path ext) eqn:Hends; [|discriminate].
    injection Hext as <-. apply andb_prop in Hends as [_ Hends].
    exists ext. now apply endsWith_inv.
  - exists "". now rewrite append_nil_r.
Qed.

(** X15: [pathToImportPath] only removes a tail: provided
    [removeFileExtension] returns a front part of its argument, the
    module-specifier form of a name is a front part of the name, so nothing
    before the removed ending or extension is changed. *)
Theorem pathToImportPath_keeps_the_front :
  forall (paths : PathArithmetic),
    (forall path, exists rest, path = removeFileExtension path ++ rest) ->
    forall name, exists rest, name = pathToImportPath name ++ rest.
Proof.
  intros paths Hextension name. unfold pathToImportPath.
  destruct (tryRemoveIndexOrPackage name) as [stem|] eqn:E.
  - apply tryRemoveIndexOrPackage_Some in E as (e & _ & ->). now exists e.
  - apply Hextension.
Qed.

Lemma pathToImportPath_keeps_the_front_witness :
  exists rest,
    "/a/b/index.d.ts" = pathToImportPath (paths := posixPaths) "/a/b/index.d.ts" ++ rest.
Proof.
  apply (pathToImportPath_keeps_the_front posixPaths).
  exact posix_removeFileExtension_prefix.
Defined.

(** ** The result of the computation *)

(** X16: the result of the computation, when it returns one.  Whenever the
    path library returns the relative path and the two directory deltas,
    the updaters are built, and the computation returns a list of edits
    exactly when no reference directive and no import of a file that is not
    moved makes the external updater fail; the list is then the edits of
    the configuration scan followed by the edits of the source files, file
    by file in the order of the project, and within a file reference
    directives before imports. *)
Theorem getEditsForFileRename_result :
  forall (paths : PathArithmetic) (program : Program) (oldPath newPath : string)
         (host : LanguageServiceHost) (rel deltaNewToOld deltaOldToNew : string),
    getRelativePathFromFile oldPath newPath
      (createGetCanonicalFileName (hostUsesCaseSensitiveFileNames host))
    = Returned rel ->
    getRelative newPath oldPath = Returned deltaNewToOld ->
    getRelative oldPath newPath = Returned deltaOldToNew ->
    exists externalPathUpdater internalPathUpdater,
      getExternalPathUpdater oldPath newPath host = Returned externalPathUpdater
      /\ getInternalPathUpdater oldPath newPath = Returned internalPathUpdater
      /\ forall edits,
           getEditsForFileRename program oldPath newPath host = Returned edits
           <->
           (forall file,
               In file (getSourceFiles program) ->
               isMovedFile oldPath newPath file = false ->
               ~ failsOnFile program externalPathUpdater host file)
           /\ edits
              = (configScanEdits program externalPathUpdater
                 ++ flat_map
                      (fun file =>
                         if isMovedFile oldPath newPath file
                         then workerEdits file
                                (fun referenceText =>
                                   Returned (internalPathUpdater file referenceText))
                                (fun importText =>
                                   Returned (internalPathUpdater file importText))
                         else workerEdits file
                                (fun referenceText =>
                                   externalPathUpdater
                                     (resolveTripleslashReference referenceText
                                        (fileName file))
                                     referenceText false)
                                (updateImportOfUnmovedFile program
                                   externalPathUpdater host file))
                      (getSourceFiles program))%list.
Proof.
  intros paths program oldPath newPath host rel deltaNewToOld deltaOldToNew
    Hrel HnewToOld HoldToNew.
  destruct (getExternalPathUpdater_builds _ _ _ _ Hrel) as [ext Hext].
  destruct (getInternalPathUpdater_builds _ _ _ _ HnewToOld HoldToNew)
    as [int Hint].
  exists ext, int. split; [exact Hext|]. split; [exact Hint|].
  intros edits. split.
  - intros Hrun. split.
    + intros file Hin Hunmoved Hfails.
      assert (getEditsForFileRename program oldPath newPath host
              = AssertionFailure) as Hfail.
      { apply (getEditsForFileRename_failure program _ _ _ _ _ Hext Hint).
        now exists file. }
      congruence.
    + exact (getEditsForFileRename_exact program _ _ _ _ _ Hext Hint _ Hrun).
  - intros [Hok ->].
    exact (getEditsForFileRename_returns program _ _ _ _ _ Hext Hint Hok).
Qed.

Lemma getEditsForFileRename_result_witness :
  exists externalPathUpdater internalPathUpdater,
    getExternalPathUpdater (paths := posixPaths) "/p/dir" "/p/sub/dir" exampleHost
    = Returned externalPathUpdater
    /\ getInternalPathUpdater (paths := posixPaths) "/p/dir" "/p/sub/dir"
       = Returned internalPathUpdater
    /\ [ {| edit_fileName := "/p/a.ts";
            edit_range := createTextRange 15 26;
            newText := "./sub/dir/inner" |};
         {| edit_fileName := "/p/dir/inner.ts";
            edit_range := createTextRange 15 25;
            newText := "../../outside" |} ]
       = projectEdits (paths := posixPaths) exampleMixedProgram
           externalPathUpdater internalPathUpdater "/p/dir" "/p/sub/dir"
           exampleHost.
Proof.
  assert (getRelativePathFromFile (PathArithmetic := posixPaths)
            "/p/dir" "/p/sub/dir"
            (createGetCanonicalFileName (PathArithmetic := posixPaths)
               (hostUsesCaseSensitiveFileNames exampleHost))
          = Returned "./sub/dir") as Hrel by evaluates.
  destruct (getEditsForFileRename_result posixPaths exampleMixedProgram
              "/p/dir" "/p/sub/dir" exampleHost
              "./sub/dir" "../../dir" "../sub/dir" Hrel eq_refl eq_refl)
    as (ext & int & Hext & Hint & Hresult).
  exists ext, int. split; [exact Hext|]. split; [exact Hint|].
  apply (proj1 (Hresult _)). evaluates.
Defined.
